(** * Fastly real-time tool: service resolution, directory cache and
      interval aggregator

    A shallow embedding of [src/fastly_realtime/realtime-fastly.py].

    - Python dictionaries are insertion-ordered association lists with
      unique keys (module [Dict]).
    - Python exceptions are values of [exn]; a computation that may raise
      returns a [result].
    - Code that prints, calls Slack or polls Fastly runs in the monad [M],
      which records every observable action in a trace.
    - Third-party functions ([fuzz.WRatio], [json.dump]/[json.load],
      [datetime.isoformat]/[datetime.fromisoformat]) and the outside world
      (HTTP replies, Slack replies, the clock) are parameters. *)

From Stdlib Require Import String Ascii List ZArith Lia Bool Arith.
From Stdlib Require Import DecimalString DecimalZ.
Import ListNotations.
Local Open Scope list_scope.
Local Open Scope string_scope.

Set Implicit Arguments.

(** ** Constants of the script *)

Definition VALID_ENVIRONMENTS : list string := ["production"; "dev"; "qa"].
Definition CACHE_FILE : string := "services_cache.json".
Definition CACHE_EXPIRY_HOURS : Z := 24.
Definition FUZZY_MATCH_THRESHOLD : nat := 80.
Definition DEFAULT_STREAM_DURATION : Z := 60.
Definition DEFAULT_WAIT_INTERVAL : Z := 1.
Definition COMMON_FIELDS : list string :=
  ["status_5xx"; "requests"; "hits"; "miss"; "all_pass_requests"].

(** ** Exceptions and results *)

Inductive exn : Type :=
| ValueError (msg : string)
| TypeError (msg : string)
| KeyError (key : string)
| OSError
| JSONDecodeError
| RequestException
| SlackApiError (error : string).

Inductive result (A : Type) : Type :=
| Ok (a : A)
| Raise (e : exn).
Arguments Ok {A} a.
Arguments Raise {A} e.

Definition is_raise {A} (r : result A) : bool :=
  match r with Ok _ => false | Raise _ => true end.

(** [s.startswith(p)] *)
Definition startswith (s p : string) : bool := String.prefix p s.

(** ** Python dictionaries with string keys *)

Module Dict.
Section WithValues.
Context {V : Type}.

Definition t : Type := list (string * V).

Definition empty : t := [].

(** [d.get(k)] *)
Fixpoint get (k : string) (d : t) : option V :=
  match d with
  | [] => None
  | (k', v) :: d' => if String.eqb k k' then Some v else get k d'
  end.

(** [d[k] = v]: an existing key keeps its position, a new key goes last. *)
Fixpoint set (k : string) (v : V) (d : t) : t :=
  match d with
  | [] => [(k, v)]
  | (k', v') :: d' =>
      if String.eqb k k' then (k, v) :: d' else (k', v') :: set k v d'
  end.

(** [k in d] *)
Definition mem (k : string) (d : t) : bool :=
  match get k d with Some _ => true | None => false end.

Definition keys (d : t) : list string := map fst d.
Definition items (d : t) : list (string * V) := d.

(** The invariant of a Python dict: no key occurs twice. *)
Definition wf (d : t) : Prop := NoDup (keys d).

(** [{k: v for k, v in d.items() if p(k)}] *)
Definition comprehension (p : string -> bool) (d : t) : t :=
  fold_left (fun acc kv => if p (fst kv) then set (fst kv) (snd kv) acc else acc)
            (items d) empty.
End WithValues.
Arguments t V : clear implicits.
End Dict.

(** ** Environment filter *)

Definition filter_services_by_environment
    (environment : string) (services : Dict.t string) : Dict.t string :=
  if String.eqb environment "production" then
    Dict.comprehension
      (fun name => negb (startswith name "dev.") && negb (startswith name "qa."))
      services
  else
    let environment_prefix := environment ++ "." in
    let environment_hyphen := environment ++ "-" in
    Dict.comprehension
      (fun name => startswith name environment_prefix
                   || startswith name environment_hyphen)
      services.

(** ** Name resolver *)

(** [max(l, key=key)]: the first element whose key is maximal. *)
Fixpoint py_max_from {A} (key : A -> nat) (best : A) (l : list A) : A :=
  match l with
  | [] => best
  | x :: l' => py_max_from key (if (key best <? key x)%nat then x else best) l'
  end.

Definition py_max {A} (key : A -> nat) (l : list A) : result A :=
  match l with
  | [] => Raise (ValueError "max() arg is an empty sequence")
  | x :: l' => Ok (py_max_from key x l')
  end.

Section Resolver.
(** The scorer handed to [process.extract]: [fuzz.WRatio] on the
    preprocessed query and choice, an integer between 0 and 100. *)
Variable WRatio : string -> string -> nat.

(** [process.extractWithoutOrder]: every choice with its score, kept
    when the score reaches [score_cutoff]. *)
Definition extractWithoutOrder
    (query : string) (choices : list string) (score_cutoff : nat)
  : list (string * nat) :=
  filter (fun r => (score_cutoff <=? snd r)%nat)
         (map (fun choice => (choice, WRatio query choice)) choices).

(** Stable insertion by decreasing score. *)
Fixpoint insert_desc (x : string * nat) (l : list (string * nat)) :=
  match l with
  | [] => [x]
  | y :: l' => if (snd y <=? snd x)%nat then x :: y :: l' else y :: insert_desc x l'
  end.

Definition sort_desc (l : list (string * nat)) : list (string * nat) :=
  fold_right insert_desc [] l.

(** [process.extract(query, choices, scorer=fuzz.WRatio)] with its
    defaults [limit=5] and [score_cutoff=0]: the five best, best first. *)
Definition extract (query : string) (choices : list string)
  : list (string * nat) :=
  firstn 5 (sort_desc (extractWithoutOrder query choices 0)).

Definition get_best_match
    (service_name : string) (filtered_services : Dict.t string)
    (environment : string) : result string :=
  match
    (if String.eqb environment "production" then
       find (fun name => startswith name (service_name ++ "."))
            (Dict.keys filtered_services)
     else None)
  with
  | Some name => Ok name
  | None =>
      let results := extract service_name (Dict.keys filtered_services) in
      match results with
      | [] =>
          Raise (ValueError ("No services found that match '" ++ service_name
                             ++ "' in the '" ++ environment ++ "' environment."))
      | _ :: _ =>
          match py_max snd results with
          | Ok best_match => Ok (fst best_match)
          | Raise e => Raise e
          end
      end
  end.

(** Resolution as [main] performs it: filter, then match. *)
Definition resolve (environment service_name : string)
    (services : Dict.t string) : result string :=
  get_best_match service_name
    (filter_services_by_environment environment services) environment.
End Resolver.

(** ** JSON values

    What [json.load] returns and [json.dump] accepts; [JNull] is [None]. *)

Local Unset Elimination Schemes.
Inductive json : Type :=
| JNull
| JBool (b : bool)
| JNum (z : Z)
| JStr (s : string)
| JArr (l : list json)
| JObj (d : list (string * json)).
Local Set Elimination Schemes.

(** [bool(v)] *)
Definition truthy (v : json) : bool :=
  match v with
  | JNull => false
  | JBool b => b
  | JNum z => negb (Z.eqb z 0)
  | JStr s => negb (String.eqb s "")
  | JArr l => match l with [] => false | _ :: _ => true end
  | JObj d => match d with [] => false | _ :: _ => true end
  end.

(** [v[key]] for a string key *)
Definition getitem (v : json) (key : string) : result json :=
  match v with
  | JObj d =>
      match Dict.get key d with
      | Some x => Ok x
      | None => Raise (KeyError key)
      end
  | JArr _ => Raise (TypeError "list indices must be integers or slices, not str")
  | JStr _ => Raise (TypeError "string indices must be integers")
  | JNull | JBool _ | JNum _ => Raise (TypeError "object is not subscriptable")
  end.

(** The name -> id dictionary as the Python object handed to [json.dump]. *)
Definition json_of_services (services : Dict.t string) : json :=
  JObj (map (fun kv => (fst kv, JStr (snd kv))) services).

(** ** Observable actions *)

(** Pieces of a formatted string. *)
Inductive frag : Type :=
| Lit (s : string)
| NL
| Num (z : Z)
| Kilo (z : Z)          (* "{value / 1000:.1f}K ({int(value)})" *)
| Titled (s : string)   (* s.title() *)
| Exc (e : exn).        (* "{e}" *)

Definition message : Type := list frag.

(** Slack Block Kit blocks, as far as the script builds them. *)
Inductive block : Type :=
| header (text : string)
| section_fields (fields : list message)
| divider
| section_text (text : string).

Inductive event : Type :=
| EPrint (m : message)
| ESleep (seconds : Z)
| EGet (url : string) (page : option nat)
| EPost (channel thread_ts : option string) (blocks : list block) (text : string)
| EUpdate (channel ts thread_ts : option string) (blocks : list block) (text : string).

(** ** The monad of the script: a trace of actions and a result *)

Definition M (A : Type) : Type := (list event * result A)%type.

Definition ret {A} (a : A) : M A := ([], Ok a).

Definition bind {A B} (m : M A) (k : A -> M B) : M B :=
  match m with
  | (tr, Ok a) => let (tr', r) := k a in ((tr ++ tr')%list, r)
  | (tr, Raise e) => (tr, Raise e)
  end.

Definition emit (e : event) : M unit := ([e], Ok tt).
Definition raise {A} (e : exn) : M A := ([], Raise e).
Definition lift {A} (r : result A) : M A := ([], r).
Definition print (m : message) : M unit := emit (EPrint m).
(** The actions of a block that ran before. *)
Definition replay (tr : list event) : M unit := (tr, Ok tt).

(** [try: body  except <handler's exceptions> as e: handler e]; the
    handler answers [None] for an exception its clause does not name. *)
Definition try_except {A} (body : M A) (handler : exn -> option (M A)) : M A :=
  match body with
  | (tr, Ok a) => (tr, Ok a)
  | (tr, Raise e) =>
      match handler e with
      | Some h => let (tr', r) := h in ((tr ++ tr')%list, r)
      | None => (tr, Raise e)
      end
  end.

Declare Scope script_scope.
Delimit Scope script_scope with script.
Notation "x <- c ;; k" := (bind c (fun x => k))
  (at level 100, c at next level, right associativity) : script_scope.
Notation "c ;;; k" := (bind c (fun _ => k))
  (at level 100, right associativity) : script_scope.
Local Open Scope script_scope.

Definition trace_of {A} (m : M A) : list event := fst m.
Definition result_of {A} (m : M A) : result A := snd m.

(** [except SlackApiError as e] and [except requests.exceptions.RequestException] *)
Definition is_SlackApiError (e : exn) : option string :=
  match e with SlackApiError err => Some err | _ => None end.
Definition is_RequestException (e : exn) : bool :=
  match e with RequestException => true | _ => false end.

(** [bool(s)] for a value that is [None] or a string *)
Definition str_truthy (s : option string) : bool :=
  match s with
  | None => false
  | Some s => negb (String.eqb s "")
  end.

(** ** Clock and files *)

(** A [datetime]: microseconds since the epoch, naive (as [utcnow()]
    gives it) or carrying a UTC offset. *)
Inductive datetime : Type :=
| Naive (us : Z)
| Aware (us : Z).

(** [timedelta(hours=h)] in microseconds *)
Definition timedelta_hours (h : Z) : Z := h * 3600 * 1000000.

(** [a - b] on datetimes *)
Definition datetime_sub (a b : datetime) : result Z :=
  match a, b with
  | Naive x, Naive y => Ok (x - y)%Z
  | Aware x, Aware y => Ok (x - y)%Z
  | _, _ => Raise (TypeError "can't subtract offset-naive and offset-aware datetimes")
  end.

(** A path names nothing, something that cannot be opened for reading,
    or a file with its contents. *)
Inductive file (text : Type) : Type :=
| Missing
| Unreadable
| Stored (content : text).
Arguments Missing {text}.
Arguments Unreadable {text}.
Arguments Stored {text} content.

Record filesystem (text : Type) : Type := {
  file_at : string -> file text;
  writable : string -> bool
}.

(** [os.path.exists(path)] *)
Definition path_exists {text} (fs : filesystem text) (path : string) : bool :=
  match file_at fs path with
  | Missing => false
  | Unreadable | Stored _ => true
  end.

(** [open(path, 'r')] and reading the whole file *)
Definition read_file {text} (fs : filesystem text) (path : string) : result text :=
  match file_at fs path with
  | Stored content => Ok content
  | Missing | Unreadable => Raise OSError
  end.

(** [open(path, 'w')] and writing [content] *)
Definition write_file {text} (fs : filesystem text) (path : string) (content : text)
  : result (filesystem text) :=
  if writable fs path then
    Ok {| file_at := fun p => if String.eqb p path then Stored content else file_at fs p;
          writable := writable fs |}
  else Raise OSError.

(** ** Directory cache *)

Section Cache.
(** File contents, with [json.dump] and [json.load] between Python
    objects and file contents ([None]: the contents are not JSON). *)
Variable text : Type.
Variable json_dumps : json -> text.
Variable json_loads : text -> option json.
(** [datetime.isoformat] of a naive datetime and
    [datetime.fromisoformat] ([None]: not an ISO 8601 string). *)
Variable isoformat : Z -> string.
Variable fromisoformat : string -> option datetime.

Definition json_load (content : text) : result json :=
  match json_loads content with
  | Some v => Ok v
  | None => Raise JSONDecodeError
  end.

Definition datetime_fromisoformat (v : json) : result datetime :=
  match v with
  | JStr s =>
      match fromisoformat s with
      | Some d => Ok d
      | None => Raise (ValueError "Invalid isoformat string")
      end
  | _ => Raise (TypeError "fromisoformat: argument must be str")
  end.

(** [now] is what [datetime.utcnow()] reads during the call. *)
Definition load_cache (now : Z) (fs : filesystem text) (cache_file : string)
  : M json :=
  try_except
    (if path_exists fs cache_file then
       f <- lift (read_file fs cache_file) ;;
       cache_data <- lift (json_load f) ;;
       ts <- lift (getitem cache_data "timestamp") ;;
       cache_timestamp <- lift (datetime_fromisoformat ts) ;;
       age <- lift (datetime_sub (Naive now) cache_timestamp) ;;
       if (age <? timedelta_hours CACHE_EXPIRY_HOURS)%Z then
         lift (getitem cache_data "data")
       else ret JNull
     else ret JNull)
    (fun e =>
       Some (print [Lit "Error loading cache from "; Lit cache_file; Lit ": "; Exc e] ;;;
             ret JNull)).

(** The file system after the call is the value returned. *)
Definition save_cache (now : Z) (fs : filesystem text) (cache_file : string)
    (data : json) : M (filesystem text) :=
  try_except
    (let cache_data := JObj [("timestamp", JStr (isoformat now)); ("data", data)] in
     lift (write_file fs cache_file (json_dumps cache_data)))
    (fun e =>
       Some (print [Lit "Error saving cache to "; Lit cache_file; Lit ": "; Exc e] ;;;
             ret fs)).
End Cache.

(** ** Service directory fetcher *)

Definition HISTORICAL_BASE_URL : string := "https://api.fastly.com".
Definition REAL_TIME_BASE_URL : string := "https://rt.fastly.com".

Record service : Type := { name : string; id : string }.

(** The provider's answer to one page request: the request fails
    ([requests.get] or [raise_for_status] raise), or a page of services. *)
Inductive page_reply : Type :=
| PageError
| PageOk (services : list service).

(** How a block of statements is left. *)
Inductive completion : Type :=
| Normal
| Returned
| Raised (e : exn).

Section Script.
Variable KUBIYA_DEBUG : bool.

Definition debug_print (m : message) : M unit :=
  if KUBIYA_DEBUG then print m else ret tt.

Variable text : Type.
Variable json_dumps : json -> text.
Variable json_loads : text -> option json.
Variable isoformat : Z -> string.
Variable fromisoformat : string -> option datetime.

(** The [while True] loop of [list_services], from page [page] on.
    [provider] answers the request for each page number; [fuel] bounds
    the number of requests ([None]: the bound was reached). The
    dictionary filled so far survives an exception. *)
Fixpoint fetch_pages (fuel : nat) (provider : nat -> page_reply) (page : nat)
    (all_services : Dict.t string)
  : option (list event * Dict.t string * completion) :=
  match fuel with
  | O => None
  | S fuel' =>
      let url := HISTORICAL_BASE_URL ++ "/service" in
      match provider page with
      | PageError => Some ([EGet url (Some page)], all_services, Raised RequestException)
      | PageOk [] => Some ([EGet url (Some page)], all_services, Normal)
      | PageOk services =>
          let all_services' :=
            fold_left (fun acc s => Dict.set (name s) (id s) acc)
                      services all_services in
          match fetch_pages fuel' provider (S page) all_services' with
          | Some (tr, d, c) => Some (EGet url (Some page) :: tr, d, c)
          | None => None
          end
      end
  end.

(** [save_cache(CACHE_FILE, all_services); return all_services] *)
Definition store_and_return (t_save : Z) (fs : filesystem text)
    (all_services : Dict.t string) : M (json * filesystem text) :=
  fs' <- save_cache json_dumps isoformat t_save fs CACHE_FILE
           (json_of_services all_services) ;;
  ret (json_of_services all_services, fs').

(** [t_load] and [t_save] are the clock readings of [load_cache] and
    [save_cache]. The result is the returned object and the file system
    left behind ([None]: the bound on requests was reached). *)
Definition list_services (fuel : nat) (t_load t_save : Z)
    (fs : filesystem text) (provider : nat -> page_reply)
  : option (M (json * filesystem text)) :=
  let cached := load_cache json_loads fromisoformat t_load fs CACHE_FILE in
  match result_of cached with
  | Raise e => Some (cached ;;; raise e)
  | Ok cached_services =>
      if truthy cached_services then
        Some (cached ;;;
              debug_print [Lit "Loaded services from cache."] ;;;
              ret (cached_services, fs))
      else
        match fetch_pages fuel provider 1 Dict.empty with
        | None => None
        | Some (tr, all_services, c) =>
            Some (cached ;;;
                  replay tr ;;;
                  match c with
                  | Raised e =>
                      if is_RequestException e then
                        print [Lit "Error fetching services from Fastly API: "; Exc e] ;;;
                        store_and_return t_save fs all_services
                      else raise e
                  | Normal | Returned =>
                      store_and_return t_save fs all_services
                  end)
        end
  end.
End Script.

(** ** Rendering *)

Definition FASTLY_DASHBOARD_REALTIME_URL (service_id range : string) : string :=
  "https://manage.fastly.com/observability/dashboard/system/overview/realtime/"
  ++ service_id ++ "?range=" ++ range.

Definition generate_dashboard_url (service_id range_str : string) : string :=
  FASTLY_DASHBOARD_REALTIME_URL service_id range_str.

(** [format_value] on an integer counter *)
Definition format_value (value : Z) : frag :=
  if (1000 <=? value)%Z then Kilo value else Num value.

(** [s.replace(a, b)] for single characters *)
Fixpoint replace_char (a b : ascii) (s : string) : string :=
  match s with
  | EmptyString => EmptyString
  | String c s' => String (if Ascii.eqb c a then b else c) (replace_char a b s')
  end.

(** [d.get(field, 0)] *)
Definition get_or_zero (field : string) (d : Dict.t Z) : Z :=
  match Dict.get field d with
  | Some v => v
  | None => 0%Z
  end.

(** [bool(d)] for a dictionary *)
Definition dict_truthy {V} (d : Dict.t V) : bool :=
  match d with [] => false | _ :: _ => true end.

Definition summary_head (title service_name environment service_id : string)
  : list block :=
  [ header title;
    section_fields
      [ [Lit "*Service Name:*"; NL; Lit "<";
         Lit (generate_dashboard_url service_id "1m"); Lit "|"; Lit service_name; Lit ">"];
        [Lit "*Environment:*"; NL; Titled environment];
        [Lit "*Update Frequency:*"; NL; Lit "Every 1 second"] ];
    divider ].

Definition change_emoji (interval_value previous_value : Z) : string :=
  if (previous_value <? interval_value)%Z then " :arrow_up:"
  else if (interval_value <? previous_value)%Z then " :small_red_triangle_down:"
  else "".

Definition generate_slack_blocks
    (summary interval_summary : Dict.t Z)
    (service_name environment service_id : string)
    (previous_interval_summary : option (Dict.t Z)) : list block :=
  (summary_head ":bar_chart: Real-Time Data Summary" service_name environment service_id
   ++ map (fun kv =>
             let field := fst kv in
             let interval_value := get_or_zero field interval_summary in
             let previous_value :=
               match previous_interval_summary with
               | Some p => if dict_truthy p then get_or_zero field p else 0%Z
               | None => 0%Z
               end in
             section_fields
               [ [Lit "*"; Titled (replace_char "_" " " field); Lit "*"; NL;
                  Lit "*Last Interval:* `"; format_value interval_value; Lit "` ";
                  Lit (change_emoji interval_value previous_value)] ])
          (Dict.items summary)
   ++ [section_text
         "_You can stop the stream by clicking on the 'Stop' button on this thread._"])%list.

Definition generate_final_slack_blocks_with_intervals
    (summary interval_summary : Dict.t Z)
    (service_name environment service_id : string) : list block :=
  (summary_head ":bar_chart: Final Real-Time Data Summary"
                service_name environment service_id
   ++ map (fun kv =>
             let field := fst kv in
             let interval_value := get_or_zero field interval_summary in
             section_fields
               [ [Lit "*"; Titled (replace_char "_" " " field); Lit "*"; NL;
                  Lit "*Last Interval:* `"; format_value interval_value; Lit "`"] ])
          (Dict.items summary))%list.

(** ** Notification sink *)

(** Slack's answers to [chat_postMessage] and [chat_update]. *)
Inductive post_reply : Type :=
| Posted (channel ts : string)
| PostFailed (error : string).

Inductive update_reply : Type :=
| Updated
| UpdateFailed (error : string).

Definition chat_postMessage (reply : post_reply)
    (channel thread_ts : option string) (blocks : list block) (text : string)
  : M (string * string) :=
  emit (EPost channel thread_ts blocks text) ;;;
  match reply with
  | Posted c ts => ret (c, ts)
  | PostFailed err => raise (SlackApiError err)
  end.

Definition chat_update (reply : update_reply)
    (channel ts thread_ts : option string) (blocks : list block) (text : string)
  : M unit :=
  emit (EUpdate channel ts thread_ts blocks text) ;;;
  match reply with
  | Updated => ret tt
  | UpdateFailed err => raise (SlackApiError err)
  end.

(** Returns [Some (channel, ts)], or [None] after a Slack error. *)
Definition send_slack_message (reply : post_reply)
    (channel thread_ts : option string) (blocks : list block)
  : M (option (string * string)) :=
  try_except
    (response <- chat_postMessage reply channel thread_ts blocks "Message from script" ;;
     ret (Some response))
    (fun e =>
       match is_SlackApiError e with
       | Some err => Some (print [Lit "Error sending message to Slack: "; Lit err] ;;;
                           ret None)
       | None => None
       end).

Definition update_slack_message (reply : update_reply)
    (channel ts : option string) (blocks : list block) (thread_ts : option string)
  : M unit :=
  try_except
    (if str_truthy thread_ts then
       chat_update reply channel ts thread_ts blocks "Updated message from script"
     else
       chat_update reply channel ts None blocks "Updated message from script")
    (fun e =>
       match is_SlackApiError e with
       | Some err => Some (print [Lit "Error updating message on Slack: "; Lit err])
       | None => None
       end).

(** ** Real-time samples *)

Record data_point : Type := { aggregated : Dict.t Z }.

(** The provider's answer to one sample request: the request fails, or
    the [Data] array of the JSON body. *)
Inductive http_reply : Type :=
| HttpError
| HttpOk (Data : list data_point).

Section Sampling.
Variable KUBIYA_DEBUG : bool.

Definition requests_get (reply : http_reply) (url : string) : M (list data_point) :=
  emit (EGet url None) ;;;
  match reply with
  | HttpOk data => ret data
  | HttpError => raise RequestException
  end.

(** Returns [Some Data], or [None] after a request error. *)
Definition get_real_time_data (reply : http_reply)
    (api_token service_id : string) (duration_seconds : Z)
  : M (option (list data_point)) :=
  let url := REAL_TIME_BASE_URL ++ "/v1/channel/" ++ service_id ++ "/ts/0" in
  debug_print KUBIYA_DEBUG [Lit "Real-Time API URL: "; Lit url] ;;;
  try_except
    (debug_print KUBIYA_DEBUG [Lit "Retrieving real-time data..."] ;;;
     real_time_data <- requests_get reply url ;;
     ret (Some real_time_data))
    (fun e =>
       if is_RequestException e then
         Some (print [Lit "Error retrieving real-time data from Fastly API: "; Exc e] ;;;
               ret None)
       else None).
End Sampling.

(** ** Counter snapshots *)

(** [d[k]] *)
Definition dict_getitem {V} (d : Dict.t V) (k : string) : result V :=
  match Dict.get k d with
  | Some v => Ok v
  | None => Raise (KeyError k)
  end.

(** [d[k] += v] *)
Definition dict_iadd (d : Dict.t Z) (k : string) (v : Z) : result (Dict.t Z) :=
  match dict_getitem d k with
  | Ok x => Ok (Dict.set k (x + v)%Z d)
  | Raise e => Raise e
  end.

(** [for x in l: body], threading the variables the body assigns. *)
Fixpoint for_each {A S} (l : list A) (body : S -> A -> result S) (s : S) : result S :=
  match l with
  | [] => Ok s
  | x :: l' =>
      match body s x with
      | Ok s' => for_each l' body s'
      | Raise e => Raise e
      end
  end.

(** [{field: 0 for field in COMMON_FIELDS}] *)
Definition zero_stats : Dict.t Z :=
  fold_left (fun d field => Dict.set field 0%Z d) COMMON_FIELDS Dict.empty.

(** The interval snapshot of one sample (lines 333-337). *)
Definition interval_stats_of (stats_data : list data_point) : result (Dict.t Z) :=
  for_each stats_data
    (fun interval_stats data_point =>
       for_each COMMON_FIELDS
         (fun interval_stats common_field =>
            if Dict.mem common_field (aggregated data_point) then
              match dict_getitem (aggregated data_point) common_field with
              | Ok v => dict_iadd interval_stats common_field v
              | Raise e => Raise e
              end
            else Ok interval_stats)
         interval_stats)
    zero_stats.

(** [for field in COMMON_FIELDS: total_stats[field] += interval_stats[field]] *)
Definition add_interval (total_stats interval_stats : Dict.t Z)
  : result (Dict.t Z) :=
  for_each COMMON_FIELDS
    (fun total_stats field =>
       match dict_getitem interval_stats field with
       | Ok v => dict_iadd total_stats field v
       | Raise e => Raise e
       end)
    total_stats.

(** ** Interval aggregator *)

(** The variables [stream_real_time_data] assigns. *)
Record locals : Type := {
  total_stats : Dict.t Z;
  previous_stats : Dict.t Z;
  channel : option string;
  slack_ts : option string
}.

(** How a statement inside the function ends: it goes on with a value,
    it is a [return], or it raises. *)
Inductive flow (A : Type) : Type :=
| Go (a : A)
| Return
| Exn (e : exn).
Arguments Go {A} a.
Arguments Return {A}.
Arguments Exn {A} e.

(** Statements of the function body: they read and assign the locals
    and add to the trace. *)
Definition B (A : Type) : Type := locals -> (list event * locals * flow A)%type.

Definition go {A} (a : A) : B A := fun st => ([], st, Go a).

Definition then_ {A C} (c : B A) (k : A -> B C) : B C :=
  fun st =>
    match c st with
    | (tr, st', Go a) =>
        match k a st' with
        | (tr', st'', f) => ((tr ++ tr')%list, st'', f)
        end
    | (tr, st', Return) => (tr, st', Return)
    | (tr, st', Exn e) => (tr, st', Exn e)
    end.

(** A call of one of the script's functions. *)
Definition call {A} (m : M A) : B A :=
  fun st =>
    match m with
    | (tr, Ok a) => (tr, st, Go a)
    | (tr, Raise e) => (tr, st, Exn e)
    end.

Definition eval {A} (r : result A) : B A := call (lift r).
Definition read : B locals := fun st => ([], st, Go st).
Definition assign (f : locals -> locals) : B unit := fun st => ([], f st, Go tt).
Definition return_ {A} : B A := fun st => ([], st, Return).
Definition throw {A} (e : exn) : B A := fun st => ([], st, Exn e).

(** [try: body  finally: final] *)
Definition try_finally {A} (body : B A) (final : B unit) : B A :=
  fun st =>
    match body st with
    | (tr, st', f) =>
        match final st' with
        | (tr', st'', Go _) => ((tr ++ tr')%list, st'', f)
        | (tr', st'', Return) => ((tr ++ tr')%list, st'', Return)
        | (tr', st'', Exn e) => ((tr ++ tr')%list, st'', Exn e)
        end
    end.

(** [while datetime.utcnow() < end_time: body]: the clock is given by
    the list of ticks for which the guard holds, each with what the
    outside world answers during that tick. *)
Fixpoint while_before_end_time {W} (ticks : list W) (body : W -> B unit) : B unit :=
  fun st =>
    match ticks with
    | [] => ([], st, Go tt)
    | w :: ticks' =>
        match body w st with
        | (tr, st', Go _) =>
            match while_before_end_time ticks' body st' with
            | (tr', st'', f) => ((tr ++ tr')%list, st'', f)
            end
        | (tr, st', Return) => (tr, st', Return)
        | (tr, st', Exn e) => (tr, st', Exn e)
        end
    end.

(** The function's result: falling off the end and [return] both give
    [None]. *)
Definition run_body (body : B unit) (st : locals) : M unit :=
  match body st with
  | (tr, _, Go _) => (tr, Ok tt)
  | (tr, _, Return) => (tr, Ok tt)
  | (tr, _, Exn e) => (tr, Raise e)
  end.

Declare Scope body_scope.
Delimit Scope body_scope with body.
Notation "x <- c ;; k" := (then_ c (fun x => k))
  (at level 100, c at next level, right associativity) : body_scope.
Notation "c ;;; k" := (then_ c (fun _ => k))
  (at level 100, right associativity) : body_scope.

(** What the outside world answers during one tick: the sample request
    and, when a summary is sent, Slack's answer to the update. *)
Record tick_world : Type := {
  sample : http_reply;
  update_answer : update_reply
}.

(** The outside world of one stream. *)
Record stream_world : Type := {
  post_answer : post_reply;
  ticks : list tick_world;
  final_answer : update_reply
}.

Section Aggregator.
Variable KUBIYA_DEBUG : bool.
Variables api_token service_name environment service_id : string.
Variables duration wait_interval : Z.
Variables slack_channel thread_ts : option string.

Local Open Scope body_scope.

(** [for field, value in stats.items(): print(f"{field}: {format_value(value)}")] *)
Definition print_stats (stats : Dict.t Z) : B unit :=
  fold_right
    (fun kv rest =>
       call (print [Lit (fst kv); Lit ": "; format_value (snd kv)]) ;;; rest)
    (go tt) (Dict.items stats).

(** One iteration of the polling loop (lines 327-350). *)
Definition tick (w : tick_world) : B unit :=
  call (emit (ESleep wait_interval)) ;;;
  stats_data <- call (get_real_time_data KUBIYA_DEBUG (sample w)
                        api_token service_id wait_interval) ;;
  match stats_data with
  | None | Some [] =>
      call (print [Lit "Unable to retrieve real-time data."]) ;;;
      return_
  | Some stats_data =>
      interval_stats <- eval (interval_stats_of stats_data) ;;
      st <- read ;;
      total_stats' <- eval (add_interval (total_stats st) interval_stats) ;;
      assign (fun st => {| total_stats := total_stats';
                           previous_stats := previous_stats st;
                           channel := channel st;
                           slack_ts := slack_ts st |}) ;;;
      if str_truthy slack_channel then
        let blocks :=
          generate_slack_blocks total_stats' interval_stats
            service_name environment service_id (Some (previous_stats st)) in
        call (update_slack_message (update_answer w)
                (channel st) (slack_ts st) blocks thread_ts) ;;;
        assign (fun st => {| total_stats := total_stats st;
                             previous_stats := interval_stats;
                             channel := channel st;
                             slack_ts := slack_ts st |})
      else
        call (print [NL; Lit "Real-Time Data Summary (Last "; Num wait_interval;
                     Lit " seconds):"]) ;;;
        print_stats interval_stats ;;;
        call (print [NL; Lit "---"; NL])
  end.

(** The [try] block (lines 326-356). *)
Definition polling (ws : list tick_world) : B unit :=
  while_before_end_time ws tick ;;;
  if negb (str_truthy slack_channel) then
    call (print [NL; Lit "Total Real-Time Data Summary:"]) ;;;
    st <- read ;;
    print_stats (total_stats st) ;;;
    call (print [NL; Lit "---"; NL])
  else go tt.

(** The [finally] block (lines 358-360). *)
Definition teardown (final : update_reply) : B unit :=
  st <- read ;;
  if str_truthy slack_channel && str_truthy (slack_ts st) then
    let final_blocks :=
      generate_final_slack_blocks_with_intervals
        (total_stats st) (previous_stats st) service_name environment service_id in
    call (update_slack_message final slack_channel (slack_ts st)
            final_blocks thread_ts)
  else go tt.

(** Lines 315-323: the locals are set up and the sink is opened. *)
Definition starting (post : post_reply) : B unit :=
  call (print [Lit "Streaming real-time data for "; Num duration;
               Lit " seconds with a wait interval of "; Num wait_interval;
               Lit " seconds..."]) ;;;
  assign (fun st => {| total_stats := zero_stats;
                       previous_stats := zero_stats;
                       channel := channel st;
                       slack_ts := None |}) ;;;
  if str_truthy slack_channel then
    let blocks :=
      generate_slack_blocks zero_stats Dict.empty
        service_name environment service_id None in
    sent <- call (send_slack_message post slack_channel thread_ts blocks) ;;
    match sent with
    | Some (c, ts) =>
        assign (fun st => {| total_stats := total_stats st;
                             previous_stats := previous_stats st;
                             channel := Some c;
                             slack_ts := Some ts |})
    | None => throw (TypeError "cannot unpack non-iterable NoneType object")
    end
  else go tt.

Definition stream_body (w : stream_world) : B unit :=
  starting (post_answer w) ;;;
  try_finally (polling (ticks w)) (teardown (final_answer w)).

(** Before the first assignment no local is bound. *)
Definition unbound : locals :=
  {| total_stats := Dict.empty; previous_stats := Dict.empty;
     channel := None; slack_ts := None |}.

Definition stream_real_time_data (w : stream_world) : M unit :=
  run_body (stream_body w) unbound.
End Aggregator.

(** ** Environment names and service prefixes *)

(** [c.lower()] for one character; only the letters A-Z change. A
    name outside ASCII never lowers to one of the valid environments,
    so [get_environment] answers as the script does on every input. *)
Definition lower_char (c : ascii) : ascii :=
  let n := nat_of_ascii c in
  if (65 <=? n)%nat && (n <=? 90)%nat then ascii_of_nat (n + 32) else c.

(** [s.lower()] *)
Fixpoint lower (s : string) : string :=
  match s with
  | EmptyString => EmptyString
  | String c s' => String (lower_char c) (lower s')
  end.

(** [env_name] is [None] or a string. *)
Definition get_environment (env_name : option string) : option string :=
  match env_name with
  | None => None
  | Some s =>
      if negb (str_truthy (Some s)) then None
      else
        let env_name := lower s in
        if existsb (String.eqb env_name) VALID_ENVIRONMENTS then Some env_name
        else None
  end.

(** [s.replace(a, '')] for a single character *)
Fixpoint remove_char (a : ascii) (s : string) : string :=
  match s with
  | EmptyString => EmptyString
  | String c s' =>
      if Ascii.eqb c a then remove_char a s' else String c (remove_char a s')
  end.

Definition construct_service_prefix (service_name environment : string) : string :=
  if String.eqb environment "production" then service_name
  else environment ++ "." ++ remove_char " " service_name.

(** ** Entry point *)

(** The dictionary behind a JSON object whose values are all strings. *)
Fixpoint as_services (d : list (string * json)) : option (Dict.t string) :=
  match d with
  | [] => Some []
  | (k, JStr v) :: d' =>
      match as_services d' with
      | Some services => Some ((k, v) :: services)
      | None => None
      end
  | _ :: _ => None
  end.

(** The outside world of one run of [main]. *)
Record main_world (text : Type) : Type := {
  fuel : nat;
  t_load : Z;
  t_save : Z;
  disk : filesystem text;
  provider : nat -> page_reply;
  stream_answers : stream_world
}.

Section Main.
Variable KUBIYA_DEBUG : bool.
(** [FASTLY_API_TOKEN], [SLACK_CHANNEL_ID] and [SLACK_THREAD_TS] of the
    process environment; the token is taken to be set. *)
Variable API_TOKEN : string.
Variables SLACK_CHANNEL_ID SLACK_THREAD_TS : option string.
Variable WRatio : string -> string -> nat.
Variable text : Type.
Variable json_dumps : json -> text.
Variable json_loads : text -> option json.
Variable isoformat : Z -> string.
Variable fromisoformat : string -> option datetime.

(** Lines 376-389, once [services] is known to be a non-empty
    name -> id dictionary. *)
Definition resolve_and_stream (environment service_name : string)
    (services : Dict.t string) (answers : stream_world) : M unit :=
  let filtered_services := filter_services_by_environment environment services in
  best_match <- lift (get_best_match WRatio service_name filtered_services environment) ;;
  if negb (str_truthy (Some best_match)) then
    print [Lit "No matching service found for '"; Lit service_name;
           Lit "' in the '"; Lit environment; Lit "' environment."]
  else
    service_id <- lift (dict_getitem services best_match) ;;
    debug_print KUBIYA_DEBUG [Lit "Best matching service: "; Lit best_match] ;;;
    stream_real_time_data KUBIYA_DEBUG API_TOKEN best_match environment service_id
      DEFAULT_STREAM_DURATION DEFAULT_WAIT_INTERVAL
      SLACK_CHANNEL_ID SLACK_THREAD_TS answers ;;;
    print [Lit "View more details in the Fastly dashboard: ";
           Lit (generate_dashboard_url service_id "60s")].

(** The [try] block of [main] (lines 364-389): what it does and the file
    system it leaves. [None]: the bound on page requests was reached, or
    the cache holds a non-empty object that is not a name -> id
    dictionary, which this model does not follow. *)
Definition main_try (environment service_name : string) (w : main_world text)
  : option (M unit * filesystem text) :=
  match get_environment (Some environment) with
  | None =>
      Some (print [Lit "No matching environment found for '"; Lit "None";
                   Lit "'. Available environments: ";
                   Lit "['production', 'dev', 'qa']"],
            disk w)
  | Some environment =>
      match list_services KUBIYA_DEBUG json_dumps json_loads isoformat fromisoformat
              (fuel w) (t_load w) (t_save w) (disk w) (provider w) with
      | None => None
      | Some listed =>
          let fetching := debug_print KUBIYA_DEBUG [Lit "Fetching list of services..."] in
          match result_of listed with
          | Raise e => Some ((fetching ;;; listed ;;; ret tt), disk w)
          | Ok (services, fs) =>
              if negb (truthy services) then
                Some ((fetching ;;; listed ;;; print [Lit "No services found."]), fs)
              else
                match services with
                | JObj d =>
                    match as_services d with
                    | Some services =>
                        Some ((fetching ;;; listed ;;;
                               resolve_and_stream environment service_name services
                                 (stream_answers w)),
                              fs)
                    | None => None
                    end
                | _ => None
                end
          end
      end
  end.

(** [except Exception as e: print(f"An error occurred: {e}")] around the
    [try] block. *)
Definition main (environment service_name : string) (w : main_world text)
  : option (M unit * filesystem text) :=
  match main_try environment service_name w with
  | Some (body, fs) =>
      Some (try_except body
              (fun e => Some (print [Lit "An error occurred: "; Exc e])),
            fs)
  | None => None
  end.
End Main.

(** * Vocabulary of the statements

    Definitions the properties are stated with: readings of the trace,
    the samples a stream processes, and concrete inputs. *)

(** ** Directories and scorers *)

Definition sample_directory : Dict.t string :=
  [("prod-svc", "id1"); ("dev.prod-svc", "id2"); ("qa-edge", "id3"); ("dev-api", "id4")].

(** A scorer for two strings that share no character: [fuzz.WRatio]
    gives 0 on "zzz" against "dev.checkout". *)
Definition disjoint_score : string -> string -> nat := fun _ _ => 0.

(** ** Cache entries, clocks and disks *)

Section CacheVocabulary.
Variable text : Type.
Variable json_loads : text -> option json.
Variable fromisoformat : string -> option datetime.

(** The file at [cache_file] holds a JSON object whose timestamp is a
    naive ISO 8601 date less than 24 hours before [now], and whose data
    is [v]. *)
Definition fresh_entry (now : Z) (fs : filesystem text) (cache_file : string)
    (v : json) : Prop :=
  exists content cache_data s ts,
    file_at fs cache_file = Stored content
    /\ json_loads content = Some cache_data
    /\ getitem cache_data "timestamp" = Ok (JStr s)
    /\ fromisoformat s = Some (Naive ts)
    /\ (now - ts < timedelta_hours CACHE_EXPIRY_HOURS)%Z
    /\ getitem cache_data "data" = Ok v.

End CacheVocabulary.

(** A test double for the clock's text format: a timestamp is printed
    as its number of microseconds in decimal. *)
Definition decimal_isoformat (t : Z) : string :=
  NilEmpty.string_of_int (Z.to_int t).

Definition decimal_fromisoformat (s : string) : option datetime :=
  match NilEmpty.int_of_string s with
  | Some d => Some (Naive (Z.of_int d))
  | None => None
  end.

(** A test double for the disk: file contents are the parsed JSON value
    ([None] for contents that are not JSON), every path can be written
    and no file exists. *)
Definition empty_disk : filesystem (option json) :=
  {| file_at := fun _ => Missing; writable := fun _ => true |}.

Definition one_hour : Z := 3600 * 1000000.

(** A cache file written 25 hours ago. *)
Definition stale_disk : filesystem (option json) :=
  {| file_at := fun p =>
       if String.eqb p CACHE_FILE then
         Stored (Some (JObj [("timestamp", JStr (decimal_isoformat 0));
                             ("data", json_of_services sample_directory)]))
       else Missing;
     writable := fun _ => true |}.


(** ** Pages *)

(** The services of a page reply. *)
Definition page_services (r : page_reply) : list service :=
  match r with
  | PageOk services => services
  | PageError => []
  end.

(** The name -> id pairs of [n] pages starting at page [first], inserted
    into [d] in the order they arrive. *)
Fixpoint accumulated (provider : nat -> page_reply) (first n : nat)
    (d : Dict.t string) : Dict.t string :=
  match n with
  | O => d
  | S n' =>
      accumulated provider (S first) n'
        (fold_left (fun acc s => Dict.set (name s) (id s) acc)
                   (page_services (provider first)) d)
  end.

(** How the fetch ends at a page that stops it. *)
Definition stop_of (r : page_reply) : completion :=
  match r with
  | PageError => Raised RequestException
  | PageOk _ => Normal
  end.

(** Page 1 lists two services and the request for page 2 fails. *)
Definition failing_provider (page : nat) : page_reply :=
  match page with
  | 1 => PageOk [ {| name := "prod-svc"; id := "id1" |};
                  {| name := "dev.prod-svc"; id := "id2" |} ]
  | _ => PageError
  end.

(** ** Snapshots *)

(** A snapshot with exactly the tracked fields, in their order. *)
Definition stats5 (a b c e g : Z) : Dict.t Z :=
  [("status_5xx", a); ("requests", b); ("hits", c); ("miss", e);
   ("all_pass_requests", g)].

Definition has_fields (d : Dict.t Z) : Prop := Dict.keys d = COMMON_FIELDS.

(** The counter of [field] in one data point, 0 when it is absent. *)
Definition point_value (field : string) (p : data_point) : Z :=
  get_or_zero field (aggregated p).

(** The sum of the counters of [field] over the points of a sample. *)
Definition sample_value (field : string) (stats_data : list data_point) : Z :=
  fold_right (fun p acc => (point_value field p + acc)%Z) 0%Z stats_data.

(** The snapshot of a sample as a dictionary. *)
Definition snapshot (stats_data : list data_point) : Dict.t Z :=
  stats5 (sample_value "status_5xx" stats_data)
         (sample_value "requests" stats_data)
         (sample_value "hits" stats_data)
         (sample_value "miss" stats_data)
         (sample_value "all_pass_requests" stats_data).

(** The samples of the ticks the loop processes in full: those before
    the first tick whose sample is missing or empty. *)
Fixpoint processed (ws : list tick_world) : list (list data_point) :=
  match ws with
  | [] => []
  | w :: ws' =>
      match sample w with
      | HttpOk (p :: ps) => (p :: ps) :: processed ws'
      | HttpOk [] | HttpError => []
      end
  end.

(** The interval snapshots of the ticks processed in full. *)
Definition snapshots (ws : list tick_world) : list (Dict.t Z) :=
  map snapshot (processed ws).

(** The sum of the snapshots' values of [field]. *)
Definition total_of (field : string) (snapshots : list (Dict.t Z)) : Z :=
  fold_right (fun iv acc => (get_or_zero field iv + acc)%Z) 0%Z snapshots.

(** Every counter the provider sends during [ws] is non-negative. *)
Definition nonnegative_samples (ws : list tick_world) : Prop :=
  forall w stats_data p field v,
    In w ws -> sample w = HttpOk stats_data -> In p stats_data ->
    Dict.get field (aggregated p) = Some v -> (0 <= v)%Z.

(** ** Traces *)

Definition is_sink_call (e : event) : bool :=
  match e with
  | EPost _ _ _ _ | EUpdate _ _ _ _ _ => true
  | EPrint _ | ESleep _ | EGet _ _ => false
  end.

(** The emissions to the sink, in the order they are made. *)
Definition sink_calls (tr : list event) : list event := filter is_sink_call tr.

(** An update that carries the final summary. *)
Definition is_final_summary (e : event) : bool :=
  match e with
  | EUpdate _ _ _ (header title :: _) _ =>
      String.eqb title ":bar_chart: Final Real-Time Data Summary"
  | _ => false
  end.

(** The line printed when a tick has no data. *)
Definition unavailable_line : event :=
  EPrint [Lit "Unable to retrieve real-time data."].

(** Actions that ran before a statement's own. *)
Definition after (tr : list event) {A} (x : list event * locals * flow A)
  : list event * locals * flow A :=
  match x with
  | (tr', st, f) => ((tr ++ tr')%list, st, f)
  end.

Section AggregatorVocabulary.
Variable KUBIYA_DEBUG : bool.
Variables api_token service_name environment service_id : string.
Variables duration wait_interval : Z.
Variables slack_channel thread_ts : option string.

(** What one poll adds to the trace. *)
Definition poll_trace (reply : http_reply) : list event :=
  ESleep wait_interval
  :: trace_of (get_real_time_data KUBIYA_DEBUG reply api_token service_id wait_interval).

(** The locals when the loop over [ws] is left. *)
Definition locals_after (ws : list tick_world) (st : locals) : locals :=
  snd (fst (while_before_end_time ws
              (tick KUBIYA_DEBUG api_token service_name environment service_id
                    wait_interval slack_channel thread_ts) st)).

(** The [thread_ts] argument of [chat_update]. *)
Definition thread_arg : option string :=
  if str_truthy thread_ts then thread_ts else None.

(** The summary sent for a tick whose snapshot is [cur], after a tick
    whose snapshot was [prev]; of the running totals only the field
    names are rendered. *)
Definition interval_update (c ts : option string) (prev cur : Dict.t Z) : event :=
  EUpdate c ts thread_arg
    (generate_slack_blocks zero_stats cur service_name environment service_id
       (Some prev))
    "Updated message from script".

(** The final summary, which shows the last interval snapshot. *)
Definition final_update (ts : string) (last_interval : Dict.t Z) : event :=
  EUpdate slack_channel (Some ts) thread_arg
    (generate_final_slack_blocks_with_intervals zero_stats last_interval
       service_name environment service_id)
    "Updated message from script".

(** The message that opens the sink session. *)
Definition opening_post : event :=
  EPost slack_channel thread_ts
    (generate_slack_blocks zero_stats Dict.empty service_name environment
       service_id None)
    "Message from script".

(** The first line the function prints. *)
Definition streaming_banner : event :=
  EPrint [Lit "Streaming real-time data for "; Num duration;
          Lit " seconds with a wait interval of "; Num wait_interval;
          Lit " seconds..."].

End AggregatorVocabulary.

(** ** A concrete stream

    Two samples, {requests: 100} then {requests: 80}, and a failed poll. *)

Definition sample_ticks : list tick_world :=
  [ {| sample := HttpOk [ {| aggregated := [("requests", 100%Z)] |} ];
       update_answer := Updated |};
    {| sample := HttpOk [ {| aggregated := [("requests", 80%Z)] |} ];
       update_answer := Updated |};
    {| sample := HttpError; update_answer := Updated |} ].

Definition sample_world (post : post_reply) : stream_world :=
  {| post_answer := post; ticks := sample_ticks; final_answer := Updated |}.

(** The locals once the sink session is open. *)
Definition started : locals :=
  {| total_stats := zero_stats; previous_stats := zero_stats;
     channel := Some "C42"; slack_ts := Some "1700000000.000100" |}.

(** ** Requests and console lines *)

Definition is_get (e : event) : bool :=
  match e with
  | EGet _ _ => true
  | _ => false
  end.

(** The HTTP requests of a trace, in the order they are made. *)
Definition requests_of (tr : list event) : list event := filter is_get tr.



(** The services of [n] pages starting at page [first], in the order
    they are listed. *)
Fixpoint listed (provider : nat -> page_reply) (first n : nat) : list service :=
  match n with
  | O => []
  | S n' => (page_services (provider first) ++ listed provider (S first) n')%list
  end.

(** The id of the last service of [services] named [k]. *)
Definition last_listed_id (k : string) (services : list service) : option string :=
  match find (fun s => String.eqb k (name s)) (rev services) with
  | Some s => Some (id s)
  | None => None
  end.







(** ** Concrete runs *)

(** Every page request fails. *)
Definition dead_provider (page : nat) : page_reply := PageError.

(** Page 1 lists "api" and "web", page 2 lists "api" again under a new
    id, page 3 is empty. *)
Definition relisting_provider (page : nat) : page_reply :=
  match page with
  | 1 => PageOk [ {| name := "api"; id := "id1" |}; {| name := "web"; id := "id2" |} ]
  | 2 => PageOk [ {| name := "api"; id := "id3" |} ]
  | _ => PageOk []
  end.

(** A run of [main] on an empty disk, against the provider whose second
    page fails, with the concrete stream. *)
Definition sample_main_world (post : post_reply) : main_world (option json) :=
  {| fuel := 5; t_load := 0; t_save := 0; disk := empty_disk;
     provider := failing_provider; stream_answers := sample_world post |}.

(** * Properties *)

(** ** Dictionaries *)

Module DictFacts.
Section WithValues.
Context {V : Type}.
Implicit Types (d : Dict.t V) (k : string) (v : V).

Lemma get_in_keys d k v : Dict.get k d = Some v -> In k (Dict.keys d).
Proof.
  induction d as [|[k' v'] d IH]; simpl; [discriminate|].
  destruct (String.eqb_spec k k') as [->|Hne]; auto.
Qed.

Lemma get_none d k : ~ In k (Dict.keys d) -> Dict.get k d = None.
Proof.
  induction d as [|[k' v'] d IH]; simpl; [reflexivity|].
  intros Hn. destruct (String.eqb_spec k k') as [->|Hne].
  - exfalso. apply Hn. now left.
  - apply IH. intros Hin. apply Hn. now right.
Qed.

Lemma mem_in_keys d k : Dict.mem k d = true <-> In k (Dict.keys d).
Proof.
  unfold Dict.mem. split.
  - destruct (Dict.get k d) eqn:E; [|discriminate].
    intros _. eapply get_in_keys; eauto.
  - induction d as [|[k' v'] d IH]; simpl; [tauto|].
    intros [->|Hin].
    + now rewrite String.eqb_refl.
    + destruct (String.eqb k k'); auto.
Qed.

Lemma set_fresh d k v : ~ In k (Dict.keys d) -> Dict.set k v d = (d ++ [(k, v)])%list.
Proof.
  induction d as [|[k' v'] d IH]; simpl; [reflexivity|].
  intros Hn. destruct (String.eqb_spec k k') as [->|Hne].
  - exfalso. apply Hn. now left.
  - rewrite IH; [reflexivity|]. intros Hin. apply Hn. now right.
Qed.

Lemma keys_set_present d k v : In k (Dict.keys d) -> Dict.keys (Dict.set k v d) = Dict.keys d.
Proof.
  induction d as [|[k' v'] d IH]; simpl; [tauto|].
  intros Hin. destruct (String.eqb_spec k k') as [->|Hne]; simpl.
  - reflexivity.
  - f_equal. apply IH. destruct Hin as [->|Hin]; [congruence|assumption].
Qed.

Lemma get_set_same d k v : Dict.get k (Dict.set k v d) = Some v.
Proof.
  induction d as [|[k' v'] d IH]; simpl.
  - now rewrite String.eqb_refl.
  - destruct (String.eqb k k') eqn:E; simpl; rewrite ?String.eqb_refl, ?E; auto.
Qed.

Lemma get_set_other d k k' v : k' <> k -> Dict.get k' (Dict.set k v d) = Dict.get k' d.
Proof.
  intros Hne. induction d as [|[k0 v0] d IH]; simpl.
  - destruct (String.eqb_spec k' k); congruence.
  - destruct (String.eqb_spec k k0) as [->|Hk]; simpl.
    + destruct (String.eqb_spec k' k0); congruence.
    + now rewrite IH.
Qed.

(** Looking a key up in a filtered dictionary. *)
Lemma get_filter (p : string -> bool) d k :
  Dict.get k (filter (fun kv => p (fst kv)) d)
  = if p k then Dict.get k d else None.
Proof.
  induction d as [|[k' v'] d IH]; simpl.
  - now destruct (p k).
  - destruct (p k') eqn:Ep; simpl.
    + destruct (String.eqb_spec k k') as [->|Hne].
      * now rewrite Ep.
      * exact IH.
    + rewrite IH. destruct (String.eqb_spec k k') as [->|Hne]; [|reflexivity].
      now rewrite Ep.
Qed.

Lemma keys_filter (p : string -> bool) d :
  Dict.keys (filter (fun kv => p (fst kv)) d) = filter p (Dict.keys d).
Proof.
  induction d as [|[k' v'] d IH]; simpl; [reflexivity|].
  destruct (p k'); simpl; now rewrite IH.
Qed.

Lemma comprehension_from (p : string -> bool) d acc :
  NoDup (Dict.keys acc ++ Dict.keys d) ->
  fold_left (fun acc kv => if p (fst kv) then Dict.set (fst kv) (snd kv) acc else acc)
            d acc
  = (acc ++ filter (fun kv => p (fst kv)) d)%list.
Proof.
  revert acc. induction d as [|[k v] d IH]; intros acc Hnd; simpl.
  - now rewrite app_nil_r.
  - simpl in Hnd. destruct (p k) eqn:Ep.
    + rewrite set_fresh.
      * rewrite IH.
        -- now rewrite <- app_assoc.
        -- unfold Dict.keys in *. rewrite map_app. simpl.
           rewrite <- app_assoc. exact Hnd.
      * apply NoDup_remove_2 in Hnd. intros Hin. apply Hnd.
        apply in_or_app. now left.
    + apply IH. apply NoDup_remove_1 in Hnd. exact Hnd.
Qed.

(** On a dictionary, a comprehension with a condition on the key is
    the filter of its items. *)
Lemma comprehension_filter (p : string -> bool) d :
  Dict.wf d -> Dict.comprehension p d = filter (fun kv => p (fst kv)) d.
Proof.
  intros Hwf. unfold Dict.comprehension, Dict.items, Dict.empty.
  now rewrite comprehension_from.
Qed.

Lemma wf_filter (p : string -> bool) d :
  Dict.wf d -> Dict.wf (filter (fun kv => p (fst kv)) d).
Proof.
  unfold Dict.wf. rewrite keys_filter. apply NoDup_filter.
Qed.
End WithValues.
End DictFacts.

(** ** Environment filter *)

Lemma filter_services_production (D : Dict.t string) :
  Dict.wf D ->
  filter_services_by_environment "production" D
  = filter (fun kv => negb (startswith (fst kv) "dev.") && negb (startswith (fst kv) "qa.")) D.
Proof.
  intros Hwf. unfold filter_services_by_environment. simpl.
  now rewrite DictFacts.comprehension_filter.
Qed.

Lemma filter_services_other (e : string) (D : Dict.t string) :
  e <> "production" -> Dict.wf D ->
  filter_services_by_environment e D
  = filter (fun kv => startswith (fst kv) (e ++ ".") || startswith (fst kv) (e ++ "-")) D.
Proof.
  intros He Hwf. unfold filter_services_by_environment.
  destruct (String.eqb_spec e "production"); [congruence|].
  now rewrite DictFacts.comprehension_filter.
Qed.

(** C1. For an environment [e] among production, dev and qa and a
    directory [D], the filtered directory is a dictionary whose entries
    are entries of [D] with the same id; for production they are exactly
    the entries whose name starts with neither "dev." nor "qa."; for dev
    and qa exactly those whose name starts with "<e>." or "<e>-". *)
Theorem filter_services_by_environment_spec (e : string) (D : Dict.t string) :
  In e VALID_ENVIRONMENTS ->
  Dict.wf D ->
  Dict.wf (filter_services_by_environment e D)
  /\ (forall name sid,
        Dict.get name (filter_services_by_environment e D) = Some sid ->
        Dict.get name D = Some sid)
  /\ (e = "production" ->
      forall name sid,
        Dict.get name (filter_services_by_environment e D) = Some sid
        <-> Dict.get name D = Some sid
            /\ startswith name "dev." = false /\ startswith name "qa." = false)
  /\ (e = "dev" \/ e = "qa" ->
      forall name sid,
        Dict.get name (filter_services_by_environment e D) = Some sid
        <-> Dict.get name D = Some sid
            /\ (startswith name (e ++ ".") = true \/ startswith name (e ++ "-") = true)).
Proof.
  intros He Hwf.
  assert (Hcases : e = "production" \/ e <> "production" /\ (e = "dev" \/ e = "qa")).
  { simpl in He. destruct He as [<-|[<-|[<-|[]]]]; [left; reflexivity| |];
      right; split; auto; discriminate. }
  destruct Hcases as [->|[Hnp Hdq]].
  - rewrite filter_services_production by assumption.
    split; [now apply (DictFacts.wf_filter
                         (fun n => negb (startswith n "dev.") && negb (startswith n "qa.")))|].
    assert (Hiff : forall name sid,
               Dict.get name
                 (filter (fun kv => negb (startswith (fst kv) "dev.")
                                    && negb (startswith (fst kv) "qa.")) D) = Some sid
               <-> Dict.get name D = Some sid
                   /\ startswith name "dev." = false /\ startswith name "qa." = false).
    { intros name sid.
      rewrite (DictFacts.get_filter
                 (fun n => negb (startswith n "dev.") && negb (startswith n "qa."))).
      destruct (startswith name "dev."), (startswith name "qa."); simpl;
        intuition congruence. }
    split; [intros name sid H; now apply Hiff in H|].
    split; [intros _; exact Hiff|].
    intros [H|H]; discriminate.
  - rewrite filter_services_other by assumption.
    split; [now apply (DictFacts.wf_filter
                         (fun n => startswith n (e ++ ".") || startswith n (e ++ "-")))|].
    assert (Hiff : forall name sid,
               Dict.get name
                 (filter (fun kv => startswith (fst kv) (e ++ ".")
                                    || startswith (fst kv) (e ++ "-")) D) = Some sid
               <-> Dict.get name D = Some sid
                   /\ (startswith name (e ++ ".") = true
                       \/ startswith name (e ++ "-") = true)).
    { intros name sid.
      rewrite (DictFacts.get_filter
                 (fun n => startswith n (e ++ ".") || startswith n (e ++ "-"))).
      destruct (startswith name (e ++ ".")), (startswith name (e ++ "-")); simpl;
        intuition congruence. }
    split; [intros name sid H; now apply Hiff in H|].
    split; [intros Hp; congruence|].
    intros _. exact Hiff.
Qed.

Lemma sample_directory_wf : Dict.wf sample_directory.
Proof.
  unfold Dict.wf, sample_directory. simpl.
  repeat (constructor; [simpl; intuition discriminate|]). constructor.
Qed.

Lemma filter_services_by_environment_spec_dev :
  In "dev" VALID_ENVIRONMENTS
  /\ Dict.wf sample_directory
  /\ filter_services_by_environment "dev" sample_directory
     = [("dev.prod-svc", "id2"); ("dev-api", "id4")]
  /\ (forall name sid,
        Dict.get name (filter_services_by_environment "dev" sample_directory) = Some sid
        <-> Dict.get name sample_directory = Some sid
            /\ (startswith name "dev." = true \/ startswith name "dev-" = true)).
Proof.
  split; [simpl; auto|].
  split; [exact sample_directory_wf|].
  split; [reflexivity|].
  apply (filter_services_by_environment_spec
           (e := "dev") (D := sample_directory)); simpl; auto.
  exact sample_directory_wf.
Defined.

(** ** Name resolver *)

Lemma py_max_from_In {A} (key : A -> nat) (l : list A) (best : A) :
  In (py_max_from key best l) (best :: l).
Proof.
  revert best. induction l as [|x l IH]; intros best; simpl.
  - now left.
  - specialize (IH (if (key best <? key x)%nat then x else best)).
    destruct (key best <? key x)%nat; simpl in IH; intuition.
Qed.

Lemma In_firstn {A} (n : nat) (l : list A) (x : A) : In x (firstn n l) -> In x l.
Proof.
  revert l. induction n as [|n IH]; intros [|y l]; simpl; try tauto.
  intros [->|Hin]; auto.
Qed.

Section ResolverFacts.
Variable WRatio : string -> string -> nat.

Lemma extractWithoutOrder_zero (query : string) (choices : list string) :
  extractWithoutOrder WRatio query choices 0
  = map (fun choice => (choice, WRatio query choice)) choices.
Proof.
  unfold extractWithoutOrder. induction choices as [|c cs IH]; simpl.
  - reflexivity.
  - f_equal. exact IH.
Qed.

Lemma insert_desc_In x y l : In y (insert_desc x l) <-> y = x \/ In y l.
Proof.
  induction l as [|z l IH]; simpl.
  - intuition.
  - destruct (snd z <=? snd x)%nat; simpl; [intuition|].
    rewrite IH. intuition.
Qed.

Lemma sort_desc_In y l : In y (sort_desc l) <-> In y l.
Proof.
  induction l as [|x l IH]; simpl; [tauto|].
  rewrite insert_desc_In, IH. intuition.
Qed.

Lemma extract_In (query : string) (choices : list string) r :
  In r (extract WRatio query choices) -> In (fst r) choices.
Proof.
  unfold extract. intros Hin. apply In_firstn in Hin.
  apply -> sort_desc_In in Hin. rewrite extractWithoutOrder_zero in Hin.
  apply in_map_iff in Hin. destruct Hin as [c [<- Hc]]. exact Hc.
Qed.

Lemma extract_nil (query : string) (choices : list string) :
  extract WRatio query choices = [] <-> choices = [].
Proof.
  unfold extract. rewrite extractWithoutOrder_zero. split.
  - destruct choices as [|c cs]; [reflexivity|]. simpl.
    set (rest := sort_desc _).
    assert (Hin : In (c, WRatio query c) (insert_desc (c, WRatio query c) rest))
      by (apply insert_desc_In; now left).
    destruct (insert_desc (c, WRatio query c) rest); [destruct Hin|discriminate].
  - intros ->. reflexivity.
Qed.

Lemma get_best_match_Ok_In name D env m :
  get_best_match WRatio name D env = Ok m -> In m (Dict.keys D).
Proof.
  unfold get_best_match.
  destruct (if String.eqb env "production" then _ else None) as [k|] eqn:Efind.
  - intros [= <-]. destruct (String.eqb env "production"); [|discriminate].
    apply find_some in Efind. tauto.
  - destruct (extract WRatio name (Dict.keys D)) as [|r rs] eqn:Ex; [discriminate|].
    simpl. intros [= <-].
    apply (@extract_In name (Dict.keys D)). rewrite Ex.
    apply py_max_from_In.
Qed.

Lemma get_best_match_empty name env :
  get_best_match WRatio name [] env
  = Raise (ValueError ("No services found that match '" ++ name
                       ++ "' in the '" ++ env ++ "' environment.")).
Proof.
  unfold get_best_match. simpl. now destruct (String.eqb env "production").
Qed.

Lemma get_best_match_nonempty name D env :
  D <> [] -> exists m, get_best_match WRatio name D env = Ok m.
Proof.
  intros Hne. unfold get_best_match.
  destruct (if String.eqb env "production" then _ else None) as [k|]; [eauto|].
  destruct (extract WRatio name (Dict.keys D)) as [|r rs] eqn:Ex.
  - apply extract_nil in Ex. destruct D; [congruence|discriminate].
  - simpl. eauto.
Qed.

(** C2, amended. [get_best_match] fails exactly when the filtered
    directory is empty, and then with the [ValueError] that reports that
    no service was found; whenever it does not fail it returns a name of
    the filtered directory. No score threshold takes part. *)
Theorem get_best_match_fails_iff_empty (name : string) (D : Dict.t string)
    (env : string) :
  (is_raise (get_best_match WRatio name D env) = true <-> D = [])
  /\ (forall e, get_best_match WRatio name D env = Raise e ->
                e = ValueError ("No services found that match '" ++ name
                                ++ "' in the '" ++ env ++ "' environment."))
  /\ (forall m, get_best_match WRatio name D env = Ok m -> In m (Dict.keys D)).
Proof.
  assert (Hcases : D = [] \/ exists m, get_best_match WRatio name D env = Ok m).
  { destruct D as [|kv D']; [now left|right].
    apply get_best_match_nonempty. discriminate. }
  split; [|split].
  - split.
    + destruct Hcases as [->|[m Hm]]; [reflexivity|].
      rewrite Hm. discriminate.
    + intros ->. now rewrite get_best_match_empty.
  - intros e He. destruct Hcases as [->|[m Hm]]; [|congruence].
    rewrite get_best_match_empty in He. congruence.
  - apply get_best_match_Ok_In.
Qed.

(** C4. In production, when some key of the filtered directory starts
    with the input name followed by a dot, the first such key is
    returned whatever the scorer is; and the directory
    {"prod-svc": "id1", "dev.prod-svc": "id2"} resolves "prod-svc" in
    production to "prod-svc". *)
Theorem get_best_match_production_prefix (name : string) (D : Dict.t string) :
  ((exists k, In k (Dict.keys D) /\ startswith k (name ++ ".") = true) ->
   exists k, find (fun n => startswith n (name ++ ".")) (Dict.keys D) = Some k
             /\ In k (Dict.keys D)
             /\ startswith k (name ++ ".") = true
             /\ get_best_match WRatio name D "production" = Ok k
             /\ forall scorer, get_best_match scorer name D "production" = Ok k)
  /\ filter_services_by_environment "production"
       [("prod-svc", "id1"); ("dev.prod-svc", "id2")] = [("prod-svc", "id1")]
  /\ resolve WRatio "production" "prod-svc"
       [("prod-svc", "id1"); ("dev.prod-svc", "id2")] = Ok "prod-svc".
Proof.
  split; [|split; reflexivity].
  intros [k0 [Hin Hpre]].
  destruct (find (fun n => startswith n (name ++ ".")) (Dict.keys D)) as [k|] eqn:Ef.
  - exists k. pose proof (find_some _ _ Ef) as [Hk1 Hk2].
    repeat split; auto; unfold get_best_match; simpl; now rewrite Ef.
  - exfalso. pose proof (find_none _ _ Ef k0 Hin) as Hn. simpl in Hn. congruence.
Qed.
End ResolverFacts.

(** C2 as stated fails: a lone candidate that scores 0, below
    [FUZZY_MATCH_THRESHOLD], is returned instead of an error. *)
Lemma get_best_match_returns_below_threshold :
  get_best_match disjoint_score "zzz" [("dev.checkout", "id9")] "dev" = Ok "dev.checkout"
  /\ disjoint_score "zzz" "dev.checkout" < FUZZY_MATCH_THRESHOLD
  /\ ~ (is_raise (get_best_match disjoint_score "zzz" [("dev.checkout", "id9")] "dev") = true
        <-> ([("dev.checkout", "id9")] = @nil (string * string)
             \/ forall c, In c (Dict.keys [("dev.checkout", "id9")]) ->
                          disjoint_score "zzz" c < FUZZY_MATCH_THRESHOLD)).
Proof.
  split; [reflexivity|]. split; [unfold disjoint_score, FUZZY_MATCH_THRESHOLD; lia|].
  intros [_ H]. simpl in H.
  assert (Hfalse : false = true).
  { apply H. right. intros c _. unfold disjoint_score, FUZZY_MATCH_THRESHOLD. lia. }
  discriminate.
Qed.

Lemma get_best_match_production_prefix_witness :
  (exists k, In k (Dict.keys [("api.example.com", "id7"); ("api-old", "id8")])
             /\ startswith k ("api" ++ ".") = true)
  /\ get_best_match disjoint_score "api"
       [("api.example.com", "id7"); ("api-old", "id8")] "production"
     = Ok "api.example.com".
Proof.
  assert (Hex : exists k, In k (Dict.keys [("api.example.com", "id7"); ("api-old", "id8")])
                          /\ startswith k ("api" ++ ".") = true).
  { exists "api.example.com". split; [simpl; auto|reflexivity]. }
  split; [exact Hex|].
  destruct (proj1 (get_best_match_production_prefix disjoint_score "api"
                     [("api.example.com", "id7"); ("api-old", "id8")]) Hex)
    as [k [Hfind [_ [_ [Hk _]]]]].
  simpl in Hfind. injection Hfind as <-. exact Hk.
Defined.

(** ** Directory cache *)

Section CacheFacts.
Variable text : Type.
Variable json_dumps : json -> text.
Variable json_loads : text -> option json.
Variable isoformat : Z -> string.
Variable fromisoformat : string -> option datetime.

Local Abbreviation fresh_entry_ := (fresh_entry json_loads fromisoformat).

Lemma load_cache_returns (now : Z) (fs : filesystem text) (cache_file : string) :
  exists v, result_of (load_cache json_loads fromisoformat now fs cache_file) = Ok v
            /\ (v <> JNull -> fresh_entry_ now fs cache_file v).
Proof.
  unfold load_cache, fresh_entry, path_exists, read_file, json_load.
  destruct (file_at fs cache_file) as [| |content] eqn:Efile; simpl;
    try (exists JNull; split; [reflexivity|congruence]).
  destruct (json_loads content) as [cache_data|] eqn:Eload; simpl;
    [|exists JNull; split; [reflexivity|congruence]].
  destruct (getitem cache_data "timestamp") as [tsv|e] eqn:Ets; simpl;
    [|exists JNull; split; [reflexivity|congruence]].
  unfold datetime_fromisoformat.
  destruct tsv as [| | |s| |]; simpl;
    try (exists JNull; split; [reflexivity|congruence]).
  destruct (fromisoformat s) as [[ts|ts]|] eqn:Eiso; simpl;
    try (exists JNull; split; [reflexivity|congruence]).
  destruct (now - ts <? timedelta_hours CACHE_EXPIRY_HOURS)%Z eqn:Eage; simpl;
    [|exists JNull; split; [reflexivity|congruence]].
  destruct (getitem cache_data "data") as [v|e] eqn:Edata; simpl;
    [|exists JNull; split; [reflexivity|congruence]].
  exists v. split; [reflexivity|]. intros _.
  exists content, cache_data, s, ts. apply Z.ltb_lt in Eage. auto 10.
Qed.

Lemma result_of_load_cache (now : Z) (fs : filesystem text) (cache_file : string) :
  (forall v, ~ fresh_entry_ now fs cache_file v) ->
  result_of (load_cache json_loads fromisoformat now fs cache_file) = Ok JNull.
Proof.
  intros Hno. destruct (load_cache_returns now fs cache_file) as [v [Hv Hfresh]].
  rewrite Hv. f_equal. destruct v; try reflexivity;
    exfalso; eapply Hno; apply Hfresh; discriminate.
Qed.

(** C5. [load_cache] never raises. It returns [None] when the file does
    not exist, cannot be read or is not JSON, and when the stored
    timestamp is 24 hours old or older; what it returns other than
    [None] is the data of an entry less than 24 hours old. *)
Theorem load_cache_absent (now : Z) (fs : filesystem text) (cache_file : string) :
  (exists v, result_of (load_cache json_loads fromisoformat now fs cache_file) = Ok v
             /\ (v <> JNull -> fresh_entry_ now fs cache_file v))
  /\ (file_at fs cache_file = Missing ->
      result_of (load_cache json_loads fromisoformat now fs cache_file) = Ok JNull)
  /\ (file_at fs cache_file = Unreadable ->
      result_of (load_cache json_loads fromisoformat now fs cache_file) = Ok JNull)
  /\ (forall content,
        file_at fs cache_file = Stored content ->
        json_loads content = None ->
        result_of (load_cache json_loads fromisoformat now fs cache_file) = Ok JNull)
  /\ (forall content cache_data,
        file_at fs cache_file = Stored content ->
        json_loads content = Some cache_data ->
        (forall s ts, getitem cache_data "timestamp" = Ok (JStr s) ->
                      fromisoformat s <> Some (Naive ts)) ->
        result_of (load_cache json_loads fromisoformat now fs cache_file) = Ok JNull)
  /\ (forall content cache_data s ts,
        file_at fs cache_file = Stored content ->
        json_loads content = Some cache_data ->
        getitem cache_data "timestamp" = Ok (JStr s) ->
        fromisoformat s = Some (Naive ts) ->
        (now - ts >= timedelta_hours CACHE_EXPIRY_HOURS)%Z ->
        result_of (load_cache json_loads fromisoformat now fs cache_file) = Ok JNull).
Proof.
  split; [apply load_cache_returns|].
  repeat split.
  - intros Hf. apply result_of_load_cache.
    intros v (c & d & s & ts & Hc & _). congruence.
  - intros Hf. apply result_of_load_cache.
    intros v (c & d & s & ts & Hc & _). congruence.
  - intros content Hf Hl. apply result_of_load_cache.
    intros v (c & d & s & ts & Hc & Hd & _). congruence.
  - intros content cache_data Hf Hl Hbad. apply result_of_load_cache.
    intros v (c & d & s & ts & Hc & Hd & Hts & Hiso & _).
    assert (d = cache_data) as -> by congruence.
    exact (Hbad s ts Hts Hiso).
  - intros content cache_data s ts Hf Hl Hts Hiso Hold.
    apply result_of_load_cache.
    intros v (c & d & s' & ts' & Hc & Hd & Hts' & Hiso' & Hage & _).
    assert (d = cache_data) as -> by congruence.
    assert (s' = s) as -> by congruence.
    assert (ts' = ts) as -> by congruence.
    lia.
Qed.

Hypothesis json_roundtrip : forall v, json_loads (json_dumps v) = Some v.
Hypothesis iso_roundtrip : forall t, fromisoformat (isoformat t) = Some (Naive t).

End CacheFacts.

Lemma decimal_iso_roundtrip (t : Z) :
  decimal_fromisoformat (decimal_isoformat t) = Some (Naive t).
Proof.
  unfold decimal_fromisoformat, decimal_isoformat.
  rewrite NilEmpty.isi. now rewrite DecimalZ.of_to.
Qed.



Lemma load_cache_absent_witness :
  result_of (load_cache (fun c => c) decimal_fromisoformat (25 * one_hour)
               stale_disk CACHE_FILE) = Ok JNull.
Proof.
  refine (proj2 (proj2 (proj2 (proj2 (proj2
            (@load_cache_absent (option json) (fun c => c) decimal_fromisoformat
               (25 * one_hour) stale_disk CACHE_FILE)))))
            _ _ (decimal_isoformat 0) 0%Z eq_refl eq_refl eq_refl _ _).
  - reflexivity.
  - vm_compute. discriminate.
Defined.

(** ** Service directory fetcher *)

Lemma fetch_pages_stops (provider : nat -> page_reply) (n : nat) :
  forall fuel page d,
    (forall i, i < n -> exists s ss, provider (page + i) = PageOk (s :: ss)) ->
    provider (page + n) = PageError \/ provider (page + n) = PageOk [] ->
    n < fuel ->
    fetch_pages fuel provider page d
    = Some (map (fun p => EGet (HISTORICAL_BASE_URL ++ "/service") (Some p))
                (seq page (S n)),
            accumulated provider page n d,
            stop_of (provider (page + n))).
Proof.
  induction n as [|n IH]; intros fuel page d Hpages Hstop Hfuel.
  - destruct fuel as [|fuel]; [lia|]. rewrite Nat.add_0_r in *. simpl.
    destruct Hstop as [-> | ->]; reflexivity.
  - destruct fuel as [|fuel]; [lia|].
    destruct (Hpages 0) as [s [ss Hp]]; [lia|]. rewrite Nat.add_0_r in Hp.
    cbn [fetch_pages]. rewrite Hp.
    rewrite (IH fuel (S page)).
    + cbn [accumulated]. rewrite Hp. cbn [page_services].
      replace (S page + n) with (page + S n) by lia. reflexivity.
    + intros i Hi. replace (S page + i) with (page + S i) by lia.
      apply Hpages. lia.
    + replace (S page + n) with (page + S n) by lia. exact Hstop.
    + lia.
Qed.

Section FetcherFacts.
Variable KUBIYA_DEBUG : bool.
Variable text : Type.
Variable json_dumps : json -> text.
Variable json_loads : text -> option json.
Variable isoformat : Z -> string.
Variable fromisoformat : string -> option datetime.

Lemma save_cache_returns (now : Z) (fs : filesystem text) (cache_file : string)
    (data : json) :
  exists fs',
    result_of (save_cache json_dumps isoformat now fs cache_file data) = Ok fs'
    /\ (writable fs cache_file = true ->
        file_at fs' cache_file
        = Stored (json_dumps (JObj [("timestamp", JStr (isoformat now));
                                    ("data", data)])))
    /\ (writable fs cache_file = false -> fs' = fs).
Proof.
  unfold save_cache, write_file.
  destruct (writable fs cache_file); simpl.
  - eexists. split; [reflexivity|]. split; [|discriminate].
    intros _. simpl. now rewrite String.eqb_refl.
  - exists fs. split; [reflexivity|]. split; [discriminate|reflexivity].
Qed.

(** C6. On a cache miss, when the requests for pages 1 .. n return
    services and the request for page n + 1 fails (or returns an empty
    page), [list_services] returns, without raising, the name -> id
    pairs of pages 1 .. n, and the file system it leaves is the one
    [save_cache] produces for that same directory: when the cache file
    can be written it holds the directory with the time of the save. *)
Theorem list_services_partial (fuel n : nat) (t_load t_save : Z)
    (fs : filesystem text) (provider : nat -> page_reply) (cached : json) :
  result_of (load_cache json_loads fromisoformat t_load fs CACHE_FILE) = Ok cached ->
  truthy cached = false ->
  (forall i, i < n -> exists s ss, provider (1 + i) = PageOk (s :: ss)) ->
  provider (1 + n) = PageError \/ provider (1 + n) = PageOk [] ->
  n < fuel ->
  exists m fs',
    list_services KUBIYA_DEBUG json_dumps json_loads isoformat fromisoformat
      fuel t_load t_save fs provider = Some m
    /\ result_of m
       = Ok (json_of_services (accumulated provider 1 n Dict.empty), fs')
    /\ result_of (save_cache json_dumps isoformat t_save fs CACHE_FILE
                    (json_of_services (accumulated provider 1 n Dict.empty)))
       = Ok fs'
    /\ (writable fs CACHE_FILE = true ->
        file_at fs' CACHE_FILE
        = Stored (json_dumps
                    (JObj [("timestamp", JStr (isoformat t_save));
                           ("data", json_of_services
                                      (accumulated provider 1 n Dict.empty))]))).
Proof.
  intros Hload Hmiss Hpages Hstop Hfuel.
  destruct (save_cache_returns t_save fs CACHE_FILE
              (json_of_services (accumulated provider 1 n Dict.empty)))
    as [fs' [Hsave [Hwritten _]]].
  unfold list_services. rewrite Hload, Hmiss.
  rewrite (@fetch_pages_stops provider n fuel 1 Dict.empty Hpages Hstop Hfuel).
  eexists. exists fs'. split; [reflexivity|].
  split; [|split; assumption].
  unfold store_and_return.
  destruct (load_cache json_loads fromisoformat t_load fs CACHE_FILE) as [tr0 r0].
  simpl in Hload. subst r0.
  destruct (save_cache json_dumps isoformat t_save fs CACHE_FILE
              (json_of_services (accumulated provider 1 n Dict.empty)))
    as [tr2 r2].
  simpl in Hsave. subst r2.
  destruct Hstop as [-> | ->]; reflexivity.
Qed.
End FetcherFacts.

Lemma list_services_partial_witness :
  exists m fs',
    list_services false Some (fun c => c) decimal_isoformat decimal_fromisoformat
      5 0 0 empty_disk failing_provider = Some m
    /\ result_of m
       = Ok (JObj [("prod-svc", JStr "id1"); ("dev.prod-svc", JStr "id2")], fs')
    /\ file_at fs' CACHE_FILE
       = Stored (Some (JObj [("timestamp", JStr (decimal_isoformat 0));
                             ("data", JObj [("prod-svc", JStr "id1");
                                            ("dev.prod-svc", JStr "id2")])])).
Proof.
  destruct (@list_services_partial false (option json) Some (fun c => c)
              decimal_isoformat decimal_fromisoformat 5 1 0%Z 0%Z
              empty_disk failing_provider JNull)
    as [m [fs' [Hm [Hr [_ Hfile]]]]].
  - reflexivity.
  - reflexivity.
  - intros i Hi. assert (i = 0) as -> by lia. simpl. eauto.
  - left. reflexivity.
  - lia.
  - exists m, fs'. split; [exact Hm|]. split; [exact Hr|]. now apply Hfile.
Defined.

(** ** Counter snapshots *)

Lemma has_fields_stats5 (d : Dict.t Z) :
  has_fields d <-> exists a b c e g, d = stats5 a b c e g.
Proof.
  unfold has_fields, COMMON_FIELDS, Dict.keys. split.
  - destruct d as [|[k1 a] [|[k2 b] [|[k3 c] [|[k4 e] [|[k5 g] [|? ?]]]]]];
      simpl; try discriminate.
    intros [= -> -> -> -> ->]. now exists a, b, c, e, g.
  - intros (a & b & c & e & g & ->). reflexivity.
Qed.

Lemma zero_stats_stats5 : zero_stats = stats5 0 0 0 0 0.
Proof. reflexivity. Qed.

Lemma get_or_zero_stats5 (a b c e g : Z) :
  get_or_zero "status_5xx" (stats5 a b c e g) = a
  /\ get_or_zero "requests" (stats5 a b c e g) = b
  /\ get_or_zero "hits" (stats5 a b c e g) = c
  /\ get_or_zero "miss" (stats5 a b c e g) = e
  /\ get_or_zero "all_pass_requests" (stats5 a b c e g) = g.
Proof. repeat split. Qed.

Lemma add_point_stats5 (p : data_point) (a b c e g : Z) :
  for_each COMMON_FIELDS
    (fun interval_stats common_field =>
       if Dict.mem common_field (aggregated p) then
         match dict_getitem (aggregated p) common_field with
         | Ok v => dict_iadd interval_stats common_field v
         | Raise e => Raise e
         end
       else Ok interval_stats)
    (stats5 a b c e g)
  = Ok (stats5 (a + point_value "status_5xx" p) (b + point_value "requests" p)
               (c + point_value "hits" p) (e + point_value "miss" p)
               (g + point_value "all_pass_requests" p)).
Proof.
  unfold point_value, get_or_zero, Dict.mem, dict_getitem, COMMON_FIELDS.
  cbn [for_each].
  destruct (Dict.get "status_5xx" (aggregated p));
    destruct (Dict.get "requests" (aggregated p));
    destruct (Dict.get "hits" (aggregated p));
    destruct (Dict.get "miss" (aggregated p));
    destruct (Dict.get "all_pass_requests" (aggregated p));
    cbn; rewrite ?Z.add_0_r; reflexivity.
Qed.

Lemma add_points_stats5 (stats_data : list data_point) :
  forall a b c e g,
    for_each stats_data
      (fun interval_stats data_point =>
         for_each COMMON_FIELDS
           (fun interval_stats common_field =>
              if Dict.mem common_field (aggregated data_point) then
                match dict_getitem (aggregated data_point) common_field with
                | Ok v => dict_iadd interval_stats common_field v
                | Raise e => Raise e
                end
              else Ok interval_stats)
           interval_stats)
      (stats5 a b c e g)
    = Ok (stats5 (a + sample_value "status_5xx" stats_data)
                 (b + sample_value "requests" stats_data)
                 (c + sample_value "hits" stats_data)
                 (e + sample_value "miss" stats_data)
                 (g + sample_value "all_pass_requests" stats_data)).
Proof.
  induction stats_data as [|p ps IH]; intros a b c e g.
  - simpl. now rewrite !Z.add_0_r.
  - cbn [for_each]. rewrite add_point_stats5. rewrite IH.
    cbn [sample_value fold_right]. now rewrite !Z.add_assoc.
Qed.

(** The interval snapshot of a sample never raises: it holds, for each
    tracked field, the sum of that field over the sample's points. *)
Lemma interval_stats_of_value (stats_data : list data_point) :
  interval_stats_of stats_data
  = Ok (stats5 (sample_value "status_5xx" stats_data)
               (sample_value "requests" stats_data)
               (sample_value "hits" stats_data)
               (sample_value "miss" stats_data)
               (sample_value "all_pass_requests" stats_data)).
Proof.
  unfold interval_stats_of. rewrite zero_stats_stats5.
  now rewrite add_points_stats5.
Qed.

Lemma add_interval_stats5 (a b c e g a' b' c' e' g' : Z) :
  add_interval (stats5 a b c e g) (stats5 a' b' c' e' g')
  = Ok (stats5 (a + a') (b + b') (c + c') (e + e') (g + g')).
Proof. reflexivity. Qed.

Lemma snapshot_get (field : string) (stats_data : list data_point) :
  In field COMMON_FIELDS ->
  Dict.get field (snapshot stats_data) = Some (sample_value field stats_data).
Proof.
  unfold COMMON_FIELDS. simpl.
  intros [<-|[<-|[<-|[<-|[<-|[]]]]]]; reflexivity.
Qed.

Lemma sample_value_nonneg (field : string) (stats_data : list data_point) :
  (forall p v, In p stats_data -> Dict.get field (aggregated p) = Some v -> (0 <= v)%Z) ->
  (0 <= sample_value field stats_data)%Z.
Proof.
  induction stats_data as [|p ps IH]; intros Hnn; simpl; [lia|].
  assert (0 <= point_value field p)%Z.
  { unfold point_value, get_or_zero.
    destruct (Dict.get field (aggregated p)) as [v|] eqn:E; [|lia].
    apply (Hnn p v); simpl; auto. }
  assert (0 <= sample_value field ps)%Z.
  { apply IH. intros q v Hq. apply Hnn. now right. }
  unfold sample_value in *. lia.
Qed.

(** ** Notification sink and sampling *)

Lemma update_slack_message_returns (reply : update_reply)
    (c ts : option string) (blocks : list block) (thread_ts : option string) :
  update_slack_message reply c ts blocks thread_ts
  = (EUpdate c ts (if str_truthy thread_ts then thread_ts else None) blocks
       "Updated message from script"
     :: match reply with
        | Updated => []
        | UpdateFailed err =>
            [EPrint [Lit "Error updating message on Slack: "; Lit err]]
        end,
     Ok tt).
Proof.
  unfold update_slack_message. destruct (str_truthy thread_ts), reply; reflexivity.
Qed.

Lemma send_slack_message_returns (reply : post_reply)
    (c thread_ts : option string) (blocks : list block) :
  send_slack_message reply c thread_ts blocks
  = match reply with
    | Posted c' ts =>
        ([EPost c thread_ts blocks "Message from script"], Ok (Some (c', ts)))
    | PostFailed err =>
        ([EPost c thread_ts blocks "Message from script";
          EPrint [Lit "Error sending message to Slack: "; Lit err]], Ok None)
    end.
Proof. destruct reply; reflexivity. Qed.

Lemma get_real_time_data_result (debug : bool) (reply : http_reply)
    (api_token service_id : string) (duration_seconds : Z) :
  result_of (get_real_time_data debug reply api_token service_id duration_seconds)
  = Ok match reply with
       | HttpOk data => Some data
       | HttpError => None
       end.
Proof. destruct debug, reply; reflexivity. Qed.

(** ** Interval aggregator *)

Lemma while_before_end_time_app {W} (body : W -> B unit) (l1 l2 : list W) (st : locals) :
  while_before_end_time (l1 ++ l2)%list body st
  = match while_before_end_time l1 body st with
    | (tr, st', Go _) =>
        match while_before_end_time l2 body st' with
        | (tr', st'', f) => ((tr ++ tr')%list, st'', f)
        end
    | (tr, st', Return) => (tr, st', Return)
    | (tr, st', Exn e) => (tr, st', Exn e)
    end.
Proof.
  revert st. induction l1 as [|w l1 IH]; intros st; simpl.
  - now destruct (while_before_end_time l2 body st) as [[tr st'] f].
  - destruct (body w st) as [[tr st'] [[]| |e]]; try reflexivity.
    rewrite IH.
    destruct (while_before_end_time l1 body st') as [[tr1 st1] [[]| |e1]];
      try reflexivity.
    destruct (while_before_end_time l2 body st1) as [[tr2 st2] f2].
    now rewrite app_assoc.
Qed.

Lemma after_nil {A} (x : list event * locals * flow A) : after [] x = x.
Proof. now destruct x as [[tr st] f]. Qed.

Lemma after_after {A} (tr1 tr2 : list event) (x : list event * locals * flow A) :
  after tr1 (after tr2 x) = after (tr1 ++ tr2)%list x.
Proof. destruct x as [[tr st] f]. simpl. now rewrite app_assoc. Qed.

Lemma then_call_ok {A C} (tr : list event) (a : A) (k : A -> B C) (st : locals) :
  then_ (call (tr, Ok a)) k st = after tr (k a st).
Proof. reflexivity. Qed.

Lemma then_eval_ok {A C} (a : A) (k : A -> B C) (st : locals) :
  then_ (eval (Ok a)) k st = k a st.
Proof. unfold then_, eval, call, lift. now destruct (k a st) as [[tr st'] f]. Qed.

Lemma then_read {C} (k : locals -> B C) (st : locals) :
  then_ read k st = k st st.
Proof. unfold then_, read. now destruct (k st st) as [[tr st'] f]. Qed.

Lemma then_assign {C} (f : locals -> locals) (k : unit -> B C) (st : locals) :
  then_ (assign f) k st = k tt (f st).
Proof. unfold then_, assign. now destruct (k tt (f st)) as [[tr st'] fl]. Qed.

Lemma then_go {A C} (a : A) (k : A -> B C) (st : locals) :
  then_ (go a) k st = k a st.
Proof. unfold then_, go. now destruct (k a st) as [[tr st'] fl]. Qed.

Lemma then_goes {A C} (c : B A) (k : A -> B C) (st st' : locals) (tr : list event) (a : A) :
  c st = (tr, st', Go a) -> then_ c k st = after tr (k a st').
Proof. unfold then_. now intros ->. Qed.

Lemma then_print {C} (m : message) (k : unit -> B C) (st : locals) :
  then_ (call (print m)) k st = after [EPrint m] (k tt st).
Proof. reflexivity. Qed.

Lemma processed_In (l : list tick_world) (d : list data_point) :
  In d (processed l) -> exists w, In w l /\ sample w = HttpOk d.
Proof.
  induction l as [|w l IH]; simpl; [tauto|].
  destruct (sample w) as [|[|p ps]] eqn:Hs; simpl; try tauto.
  intros [<-|Hin].
  - exists w. auto.
  - destruct (IH Hin) as [w' [Hw' Hs']]. exists w'. auto.
Qed.

(** The ticks processed during the first [j] ticks are processed, in the
    same order, during the first [k >= j] ticks. *)
Lemma processed_firstn_prefix (ws : list tick_world) :
  forall j k, j <= k ->
    exists extra,
      processed (firstn k ws) = (processed (firstn j ws) ++ extra)%list
      /\ forall d, In d extra -> exists w, In w ws /\ sample w = HttpOk d.
Proof.
  induction ws as [|w ws IH]; intros j k Hjk.
  - exists []. rewrite !firstn_nil. simpl. split; [reflexivity|tauto].
  - destruct j as [|j].
    + exists (processed (firstn k (w :: ws))). split; [reflexivity|].
      intros d Hd. apply processed_In in Hd. destruct Hd as [w' [Hin Hs]].
      exists w'. split; [|exact Hs]. eapply In_firstn; eauto.
    + destruct k as [|k]; [lia|]. cbn [firstn processed].
      destruct (IH j k) as [extra [Heq Hextra]]; [lia|].
      destruct (sample w) as [|[|p ps]].
      * exists []. split; [reflexivity|]. simpl. tauto.
      * exists []. split; [reflexivity|]. simpl. tauto.
      * exists extra. split; [simpl; now rewrite Heq|].
        intros d Hd. destruct (Hextra d Hd) as [w' [Hin Hs]].
        exists w'. split; [now right|exact Hs].
Qed.

Lemma total_of_app (field : string) (l1 l2 : list (Dict.t Z)) :
  total_of field (l1 ++ l2)%list = (total_of field l1 + total_of field l2)%Z.
Proof.
  unfold total_of. induction l1 as [|iv l1 IH]; simpl; [reflexivity|].
  rewrite IH. lia.
Qed.

Lemma total_of_snapshots_nonneg (field : string) (l : list (list data_point)) :
  In field COMMON_FIELDS ->
  (forall d p v, In d l -> In p d -> Dict.get field (aggregated p) = Some v -> (0 <= v)%Z) ->
  (0 <= total_of field (map snapshot l))%Z.
Proof.
  intros Hf. induction l as [|d l IH]; intros Hnn; [cbn; lia|].
  cbn [map total_of fold_right]. fold (total_of field (map snapshot l)).
  unfold get_or_zero. rewrite (snapshot_get d Hf).
  assert (0 <= sample_value field d)%Z.
  { apply sample_value_nonneg. intros p v Hp. apply (Hnn d); simpl; auto. }
  assert (0 <= total_of field (map snapshot l))%Z.
  { apply IH. intros d' p v Hd'. apply Hnn. now right. }
  lia.
Qed.

Lemma last_cons {A} (a d : A) (l : list A) : last (a :: l) d = last l a.
Proof.
  revert a d. induction l as [|b l IH]; intros a d; [reflexivity|].
  change (last (a :: b :: l) d) with (last (b :: l) d).
  now rewrite !IH.
Qed.

Lemma sink_calls_app (tr1 tr2 : list event) :
  sink_calls (tr1 ++ tr2)%list = (sink_calls tr1 ++ sink_calls tr2)%list.
Proof. apply filter_app. Qed.

Section AggregatorFacts.
Variable KUBIYA_DEBUG : bool.
Variables api_token service_name environment service_id : string.
Variables duration wait_interval : Z.
Variables slack_channel thread_ts : option string.

Local Abbreviation tick_ :=
  (tick KUBIYA_DEBUG api_token service_name environment service_id
        wait_interval slack_channel thread_ts).
Local Abbreviation polling_ :=
  (polling KUBIYA_DEBUG api_token service_name environment service_id
           wait_interval slack_channel thread_ts).
Local Abbreviation teardown_ :=
  (teardown service_name environment service_id slack_channel thread_ts).
Local Abbreviation stream_ :=
  (stream_real_time_data KUBIYA_DEBUG api_token service_name environment
     service_id duration wait_interval slack_channel thread_ts).
Local Abbreviation poll_trace_ := (poll_trace KUBIYA_DEBUG api_token service_id wait_interval).
Local Abbreviation locals_after_ :=
  (locals_after KUBIYA_DEBUG api_token service_name environment service_id
     wait_interval slack_channel thread_ts).
Local Abbreviation interval_update_ :=
  (interval_update service_name environment service_id thread_ts).
Local Abbreviation final_update_ :=
  (final_update service_name environment service_id slack_channel thread_ts).
Local Abbreviation opening_post_ :=
  (opening_post service_name environment service_id slack_channel thread_ts).
Local Abbreviation streaming_banner_ := (streaming_banner duration wait_interval).
Local Abbreviation starting_ :=
  (starting service_name environment service_id duration wait_interval
     slack_channel thread_ts).

Lemma tick_unavailable (w : tick_world) (st : locals) :
  sample w = HttpError \/ sample w = HttpOk [] ->
  tick_ w st
  = ((poll_trace_ (sample w) ++ [EPrint [Lit "Unable to retrieve real-time data."]])%list,
     st, Return).
Proof.
  unfold tick, poll_trace.
  intros [-> | ->]; destruct KUBIYA_DEBUG; reflexivity.
Qed.

Lemma print_stats_goes (stats : Dict.t Z) (st : locals) :
  exists tr, print_stats stats st = (tr, st, Go tt).
Proof.
  induction stats as [|kv stats [tr IH]].
  - now exists [].
  - unfold print_stats, Dict.items in *. cbn [fold_right].
    rewrite then_print, IH. simpl. eauto.
Qed.

Lemma tick_poll (w : tick_world) (st : locals) (p : data_point)
    (ps : list data_point) (k : option (list data_point) -> B unit) :
  sample w = HttpOk (p :: ps) ->
  then_ (call (emit (ESleep wait_interval)))
    (fun _ => then_ (call (get_real_time_data KUBIYA_DEBUG (sample w)
                             api_token service_id wait_interval)) k) st
  = after (poll_trace_ (sample w)) (k (Some (p :: ps)) st).
Proof.
  intros Hs. unfold emit. rewrite then_call_ok.
  pose proof (get_real_time_data_result KUBIYA_DEBUG (sample w)
                api_token service_id wait_interval) as Hr.
  unfold poll_trace.
  destruct (get_real_time_data KUBIYA_DEBUG (sample w) api_token service_id
              wait_interval) as [tr0 r0].
  simpl in Hr. subst r0. rewrite Hs. rewrite then_call_ok.
  rewrite after_after. reflexivity.
Qed.

(** With a sink, a tick with a sample sends one update. *)
Lemma tick_sample_sink (w : tick_world) (st : locals) (p : data_point)
    (ps : list data_point) (a b c e g : Z) :
  sample w = HttpOk (p :: ps) ->
  total_stats st = stats5 a b c e g ->
  str_truthy slack_channel = true ->
  tick_ w st
  = ((poll_trace_ (sample w)
      ++ trace_of (update_slack_message (update_answer w) (channel st) (slack_ts st)
                     (generate_slack_blocks
                        (stats5 (a + sample_value "status_5xx" (p :: ps))
                                (b + sample_value "requests" (p :: ps))
                                (c + sample_value "hits" (p :: ps))
                                (e + sample_value "miss" (p :: ps))
                                (g + sample_value "all_pass_requests" (p :: ps)))
                        (snapshot (p :: ps))
                        service_name environment service_id
                        (Some (previous_stats st)))
                     thread_ts))%list,
     {| total_stats :=
          stats5 (a + sample_value "status_5xx" (p :: ps))
                 (b + sample_value "requests" (p :: ps))
                 (c + sample_value "hits" (p :: ps))
                 (e + sample_value "miss" (p :: ps))
                 (g + sample_value "all_pass_requests" (p :: ps));
        previous_stats := snapshot (p :: ps);
        channel := channel st;
        slack_ts := slack_ts st |},
     Go tt).
Proof.
  intros Hs Ht Hc. unfold tick.
  rewrite (@tick_poll w st p ps _ Hs).
  rewrite interval_stats_of_value, then_eval_ok, then_read, Ht.
  fold (snapshot (p :: ps)). unfold snapshot at 1.
  rewrite add_interval_stats5, then_eval_ok, then_assign, Hc.
  rewrite update_slack_message_returns, then_call_ok.
  unfold assign, after, trace_of. cbn [fst]. now rewrite app_nil_r.
Qed.

Lemma tick_sample (w : tick_world) (st : locals) (p : data_point)
    (ps : list data_point) (a b c e g : Z) :
  sample w = HttpOk (p :: ps) ->
  total_stats st = stats5 a b c e g ->
  exists tr,
    tick_ w st
    = (tr,
       {| total_stats :=
            stats5 (a + sample_value "status_5xx" (p :: ps))
                   (b + sample_value "requests" (p :: ps))
                   (c + sample_value "hits" (p :: ps))
                   (e + sample_value "miss" (p :: ps))
                   (g + sample_value "all_pass_requests" (p :: ps));
          previous_stats :=
            if str_truthy slack_channel then snapshot (p :: ps)
            else previous_stats st;
          channel := channel st;
          slack_ts := slack_ts st |},
       Go tt).
Proof.
  intros Hs Ht. destruct (str_truthy slack_channel) eqn:Hc.
  - rewrite (@tick_sample_sink w st p ps a b c e g Hs Ht Hc). eauto.
  - unfold tick.
    rewrite (@tick_poll w st p ps _ Hs).
    rewrite interval_stats_of_value, then_eval_ok, then_read, Ht.
    fold (snapshot (p :: ps)). unfold snapshot at 1.
    rewrite add_interval_stats5, then_eval_ok, then_assign, Hc.
    rewrite then_print.
    match goal with
    | |- context [then_ (print_stats ?s) ?k ?st'] =>
        destruct (print_stats_goes s st') as [tr Hp];
        rewrite (@then_goes _ _ (print_stats s) k st' st' tr tt Hp)
    end.
    simpl. eauto.
Qed.

Lemma loop_totals (ws : list tick_world) :
  forall st a b c e g,
    total_stats st = stats5 a b c e g ->
    exists tr st' f,
      while_before_end_time ws tick_ st = (tr, st', f)
      /\ (f = Go tt \/ f = Return)
      /\ total_stats st'
         = stats5 (a + total_of "status_5xx" (snapshots ws))
                  (b + total_of "requests" (snapshots ws))
                  (c + total_of "hits" (snapshots ws))
                  (e + total_of "miss" (snapshots ws))
                  (g + total_of "all_pass_requests" (snapshots ws))
      /\ channel st' = channel st
      /\ slack_ts st' = slack_ts st.
Proof.
  induction ws as [|w ws IH]; intros st a b c e g Ht.
  - exists [], st, (Go tt). cbn. rewrite !Z.add_0_r. auto.
  - cbn [while_before_end_time].
    destruct (sample w) as [|[|p ps]] eqn:Hs.
    + rewrite (@tick_unavailable w st) by (rewrite Hs; auto).
      do 3 eexists. split; [reflexivity|].
      unfold snapshots. cbn [processed]. rewrite Hs. cbn.
      rewrite !Z.add_0_r. auto.
    + rewrite (@tick_unavailable w st) by (rewrite Hs; auto).
      do 3 eexists. split; [reflexivity|].
      unfold snapshots. cbn [processed]. rewrite Hs. cbn.
      rewrite !Z.add_0_r. auto.
    + destruct (@tick_sample w st p ps a b c e g Hs Ht) as [tr1 Ht1].
      rewrite Ht1.
      match type of Ht1 with _ = (_, ?st1, _) =>
        destruct (IH st1 _ _ _ _ _ eq_refl) as (tr2 & st2 & f2 & Hl & Hf & Htot & Hch & Hts)
      end.
      rewrite Hl. do 3 eexists. split; [reflexivity|].
      split; [exact Hf|]. split; [|split; assumption].
      rewrite Htot. unfold snapshots. cbn [processed]. rewrite Hs.
      cbn [map total_of fold_right].
      change (get_or_zero "status_5xx" (snapshot (p :: ps)))
        with (sample_value "status_5xx" (p :: ps)).
      change (get_or_zero "requests" (snapshot (p :: ps)))
        with (sample_value "requests" (p :: ps)).
      change (get_or_zero "hits" (snapshot (p :: ps)))
        with (sample_value "hits" (p :: ps)).
      change (get_or_zero "miss" (snapshot (p :: ps)))
        with (sample_value "miss" (p :: ps)).
      change (get_or_zero "all_pass_requests" (snapshot (p :: ps)))
        with (sample_value "all_pass_requests" (p :: ps)).
      unfold total_of. now rewrite !Z.add_assoc.
Qed.

Lemma locals_after_total (ws : list tick_world) (st0 : locals) (field : string) :
  total_stats st0 = zero_stats ->
  In field COMMON_FIELDS ->
  Dict.get field (total_stats (locals_after_ ws st0))
  = Some (total_of field (snapshots ws)).
Proof.
  intros H0 Hf. unfold locals_after.
  destruct (@loop_totals ws st0 0 0 0 0 0 H0)%Z
    as (tr & st' & f & Hl & _ & Htot & _).
  rewrite Hl. cbn [fst snd]. rewrite Htot.
  unfold COMMON_FIELDS in Hf. simpl in Hf.
  destruct Hf as [<-|[<-|[<-|[<-|[<-|[]]]]]]; reflexivity.
Qed.

Lemma starting_totals (post : post_reply) (tr : list event) (st : locals)
    (f : flow unit) :
  starting_ post unbound = (tr, st, f) -> total_stats st = zero_stats.
Proof.
  unfold starting. rewrite then_print, then_assign.
  destruct (str_truthy slack_channel).
  - rewrite send_slack_message_returns. destruct post as [c ts|err];
      rewrite then_call_ok; intros [= <- <- <-]; reflexivity.
  - intros [= <- <- <-]. reflexivity.
Qed.

(** C7. [stream_real_time_data] enters its loop with zeroed totals, and
    from zeroed totals, after each processed tick the running total of
    every tracked field is the sum of the interval snapshots of the ticks
    processed so far (the snapshot of a tick is what lines 333-337
    compute from its sample); when every sampled counter is
    non-negative, the running total of every tracked field never
    decreases from one tick to a later one. *)
Theorem running_total_invariant (ws : list tick_world) (st0 : locals) :
  total_stats st0 = zero_stats ->
  (forall post tr st f, starting_ post unbound = (tr, st, f) ->
                        total_stats st = zero_stats)
  /\ (forall d, interval_stats_of d = Ok (snapshot d))
  /\ (forall k field,
        In field COMMON_FIELDS ->
        Dict.get field (total_stats (locals_after_ (firstn k ws) st0))
        = Some (total_of field (snapshots (firstn k ws))))
  /\ (nonnegative_samples ws ->
      forall j k field,
        j <= k ->
        In field COMMON_FIELDS ->
        (get_or_zero field (total_stats (locals_after_ (firstn j ws) st0))
         <= get_or_zero field (total_stats (locals_after_ (firstn k ws) st0)))%Z).
Proof.
  intros H0. split; [exact starting_totals|].
  split; [exact interval_stats_of_value|].
  split; [intros k field Hf; now apply locals_after_total|].
  intros Hnn j k field Hjk Hf. unfold get_or_zero.
  rewrite !locals_after_total by assumption.
  destruct (@processed_firstn_prefix ws j k Hjk) as [extra [Heq Hextra]].
  unfold snapshots. rewrite Heq, map_app, total_of_app.
  assert (0 <= total_of field (map snapshot extra))%Z; [|lia].
  apply total_of_snapshots_nonneg; [exact Hf|].
  intros d p v Hd Hp Hv. destruct (Hextra d Hd) as [w [Hw Hs]].
  exact (Hnn w d p field v Hw Hs Hp Hv).
Qed.

Lemma poll_trace_quiet (reply : http_reply) :
  sink_calls (poll_trace_ reply) = [] /\ filter is_final_summary (poll_trace_ reply) = [].
Proof. unfold poll_trace. destruct KUBIYA_DEBUG, reply; split; reflexivity. Qed.

Lemma update_trace_sink (reply : update_reply) (c ts : option string)
    (a b c' e g : Z) (cur prev : Dict.t Z) :
  let tr := trace_of (update_slack_message reply c ts
                        (generate_slack_blocks (stats5 a b c' e g) cur
                           service_name environment service_id (Some prev))
                        thread_ts) in
  sink_calls tr = [interval_update_ c ts prev cur]
  /\ filter is_final_summary tr = [].
Proof.
  rewrite update_slack_message_returns. destruct reply; split; reflexivity.
Qed.

Lemma loop_sink (ws : list tick_world) :
  forall st a b c e g,
    total_stats st = stats5 a b c e g ->
    str_truthy slack_channel = true ->
    exists tr st' f,
      while_before_end_time ws tick_ st = (tr, st', f)
      /\ (f = Go tt \/ f = Return)
      /\ sink_calls tr
         = map (fun pc => interval_update_ (channel st) (slack_ts st) (fst pc) (snd pc))
               (combine (previous_stats st :: snapshots ws) (snapshots ws))
      /\ filter is_final_summary tr = []
      /\ previous_stats st' = last (snapshots ws) (previous_stats st)
      /\ has_fields (total_stats st')
      /\ channel st' = channel st
      /\ slack_ts st' = slack_ts st.
Proof.
  induction ws as [|w ws IH]; intros st a b c e g Ht Hc.
  - exists [], st, (Go tt). cbn.
    repeat split; auto. rewrite Ht. reflexivity.
  - cbn [while_before_end_time].
    destruct (sample w) as [|[|p ps]] eqn:Hs.
    + rewrite (@tick_unavailable w st) by (rewrite Hs; auto).
      do 3 eexists. split; [reflexivity|].
      unfold snapshots. cbn [processed]. rewrite Hs.
      rewrite sink_calls_app, filter_app.
      destruct (poll_trace_quiet HttpError) as [-> ->].
      cbn. repeat split; auto. rewrite Ht. reflexivity.
    + rewrite (@tick_unavailable w st) by (rewrite Hs; auto).
      do 3 eexists. split; [reflexivity|].
      unfold snapshots. cbn [processed]. rewrite Hs.
      rewrite sink_calls_app, filter_app.
      destruct (poll_trace_quiet (HttpOk [])) as [-> ->].
      cbn. repeat split; auto. rewrite Ht. reflexivity.
    + pose proof (@tick_sample_sink w st p ps a b c e g Hs Ht Hc) as Ht1.
      rewrite Ht1.
      match type of Ht1 with _ = (_, ?st1, _) =>
        destruct (IH st1 _ _ _ _ _ eq_refl Hc)
          as (tr2 & st2 & f2 & Hl & Hf & Hsink & Hfin & Hprev & Hfields & Hch & Hts)
      end.
      rewrite Hl. do 3 eexists. split; [reflexivity|].
      split; [exact Hf|].
      cbn [previous_stats channel slack_ts] in *.
      unfold snapshots in *. cbn [processed]. rewrite Hs. cbn [map combine].
      rewrite !sink_calls_app, !filter_app, Hsink, Hfin.
      destruct (poll_trace_quiet (HttpOk (p :: ps))) as [-> ->].
      match goal with
      | |- context [update_slack_message ?r ?c0 ?t0 _ _] =>
          destruct (@update_trace_sink r c0 t0
                      (a + sample_value "status_5xx" (p :: ps))
                      (b + sample_value "requests" (p :: ps))
                      (c + sample_value "hits" (p :: ps))
                      (e + sample_value "miss" (p :: ps))
                      (g + sample_value "all_pass_requests" (p :: ps))
                      (snapshot (p :: ps)) (previous_stats st)) as [Hu1 Hu2]
      end.
      cbv zeta in Hu1, Hu2. rewrite Hu1, Hu2.
      repeat split; auto.
      rewrite Hprev. symmetry. apply last_cons.
Qed.

Lemma teardown_goes (final : update_reply) (st : locals) :
  exists tr,
    teardown_ final st
    = (tr, st, Go tt).
Proof.
  unfold teardown. rewrite then_read.
  destruct (str_truthy slack_channel && str_truthy (slack_ts st)).
  - rewrite update_slack_message_returns. unfold call. eauto.
  - unfold go. eauto.
Qed.

(** C10. A tick whose sample request succeeds with an empty [Data]
    array ([failed = false]) is handled like one whose request failed
    ([failed = true]): it prints the unavailability line and returns,
    leaving every local as it was, so the empty sample is not
    accumulated; the two differ only by the error line that
    [get_real_time_data] prints for a failed request. After such a
    tick the remaining ticks are not run: the loop over
    [before ++ w :: rest] ends with [return] in the locals reached after
    [before], and only the teardown follows. *)
Theorem empty_sample_aborts (failed : bool) (u final : update_reply)
    (before rest : list tick_world) (st : locals) :
  let w := {| sample := if failed then HttpError else HttpOk [];
              update_answer := u |} in
  tick_ w st = ((poll_trace_ (sample w) ++ [unavailable_line])%list, st, Return)
  /\ poll_trace_ HttpError
     = (poll_trace_ (HttpOk [])
        ++ [EPrint [Lit "Error retrieving real-time data from Fastly API: ";
                    Exc RequestException]])%list
  /\ (forall tr st',
        while_before_end_time before tick_ st = (tr, st', Go tt) ->
        while_before_end_time (before ++ w :: rest)%list tick_ st
        = ((tr ++ poll_trace_ (sample w) ++ [unavailable_line])%list, st', Return)
        /\ locals_after_ (before ++ w :: rest)%list st = locals_after_ before st
        /\ exists tr_teardown,
             teardown_ final st' = (tr_teardown, st', Go tt)
             /\ try_finally (polling_ (before ++ w :: rest)%list) (teardown_ final) st
                = ((tr ++ poll_trace_ (sample w) ++ [unavailable_line]
                    ++ tr_teardown)%list, st', Return)).
Proof.
  intros w.
  assert (Hw : sample w = HttpError \/ sample w = HttpOk [])
    by (unfold w; destruct failed; auto).
  split; [exact (tick_unavailable w st Hw)|].
  split; [unfold poll_trace; destruct KUBIYA_DEBUG; reflexivity|].
  intros tr st' Hbefore.
  assert (Hloop : while_before_end_time (before ++ w :: rest)%list tick_ st
                  = ((tr ++ poll_trace_ (sample w) ++ [unavailable_line])%list,
                     st', Return)).
  { rewrite while_before_end_time_app, Hbefore.
    cbn [while_before_end_time]. now rewrite (tick_unavailable w st' Hw). }
  split; [exact Hloop|].
  split; [unfold locals_after; now rewrite Hloop, Hbefore|].
  destruct (teardown_goes final st') as [tr_teardown Htd].
  exists tr_teardown. split; [exact Htd|].
  unfold try_finally, polling. unfold then_ at 1.
  rewrite Hloop, Htd. now rewrite <- !app_assoc.
Qed.

Lemma starting_posted (post : post_reply) (c ts : string) :
  str_truthy slack_channel = true ->
  post = Posted c ts ->
  starting_ post unbound
  = ([streaming_banner_; opening_post_],
     {| total_stats := zero_stats; previous_stats := zero_stats;
        channel := Some c; slack_ts := Some ts |},
     Go tt).
Proof.
  intros Hc ->. unfold starting.
  rewrite then_print, then_assign, Hc, send_slack_message_returns, then_call_ok.
  reflexivity.
Qed.

Lemma teardown_sends (final : update_reply) (st : locals) (ts : string) :
  str_truthy slack_channel = true ->
  slack_ts st = Some ts ->
  ts <> "" ->
  has_fields (total_stats st) ->
  teardown_ final st
  = (final_update_ ts (previous_stats st)
     :: match final with
        | Updated => []
        | UpdateFailed err =>
            [EPrint [Lit "Error updating message on Slack: "; Lit err]]
        end,
     st, Go tt).
Proof.
  intros Hc Hts Hne Hf. unfold teardown.
  rewrite then_read, Hc, Hts. cbn [str_truthy andb].
  destruct (String.eqb_spec ts "") as [->|_]; [congruence|]. cbn [negb].
  rewrite update_slack_message_returns.
  apply has_fields_stats5 in Hf. destruct Hf as (a & b & c & e & g & ->).
  reflexivity.
Qed.

(** C8. When a sink is configured and the opening message was
    accepted (Slack returned a channel and a non-empty message
    timestamp), the function returns normally whether the loop ran to
    the end of its budget or stopped at a failed poll; the emissions to
    the sink are, in this order, the opening message, the interval
    summary of each processed tick in tick order (each compared with the
    snapshot of the tick before it) and one final summary; no other
    final summary is sent, and nothing follows it in the trace except
    the line that reports Slack's refusal of that very update. *)
Theorem final_summary_is_last (w : stream_world) (c ts : string) :
  str_truthy slack_channel = true ->
  post_answer w = Posted c ts ->
  ts <> "" ->
  result_of (stream_ w) = Ok tt
  /\ sink_calls (trace_of (stream_ w))
     = (opening_post_
        :: map (fun pc => interval_update_ (Some c) (Some ts) (fst pc) (snd pc))
               (combine (zero_stats :: snapshots (ticks w)) (snapshots (ticks w)))
        ++ [final_update_ ts (last (snapshots (ticks w)) zero_stats)])%list
  /\ filter is_final_summary (trace_of (stream_ w))
     = [final_update_ ts (last (snapshots (ticks w)) zero_stats)]
  /\ exists before,
       trace_of (stream_ w)
       = (before
          ++ final_update_ ts (last (snapshots (ticks w)) zero_stats)
          :: match final_answer w with
             | Updated => []
             | UpdateFailed err =>
                 [EPrint [Lit "Error updating message on Slack: "; Lit err]]
             end)%list.
Proof.
  intros Hc Hpost Hne.
  unfold stream_real_time_data, stream_body, run_body.
  rewrite (@then_goes _ _ _ _ _ _ _ _ (starting_posted Hc Hpost)).
  unfold try_finally, polling.
  destruct (@loop_sink (ticks w) _ 0%Z 0%Z 0%Z 0%Z 0%Z
              (eq_refl : total_stats {| total_stats := zero_stats;
                                        previous_stats := zero_stats;
                                        channel := Some c;
                                        slack_ts := Some ts |} = stats5 0 0 0 0 0) Hc)
    as (tr & st' & f & Hl & Hf & Hsink & Hfin & Hprev & Hfields & Hch & Hts).
  cbn [previous_stats channel slack_ts] in *.
  assert (Hpolling :
            exists f',
              then_ (while_before_end_time (ticks w) tick_)
                (fun _ =>
                   if negb (str_truthy slack_channel) then
                     then_ (call (print [NL; Lit "Total Real-Time Data Summary:"]))
                       (fun _ => then_ read (fun st =>
                          then_ (print_stats (total_stats st))
                            (fun _ => call (print [NL; Lit "---"; NL]))))
                   else go tt)
                {| total_stats := zero_stats; previous_stats := zero_stats;
                   channel := Some c; slack_ts := Some ts |}
              = (tr, st', f') /\ (f' = Go tt \/ f' = Return)).
  { unfold then_ at 1. rewrite Hl, Hc.
    destruct Hf as [-> | ->].
    - exists (Go tt). cbn [negb]. unfold go. rewrite app_nil_r. auto.
    - exists Return. auto. }
  destruct Hpolling as (f' & Hpolling & Hf').
  rewrite Hpolling.
  rewrite (@teardown_sends (final_answer w) st' ts Hc Hts Hne Hfields).
  rewrite Hprev.
  set (fin := final_update_ ts (last (snapshots (ticks w)) zero_stats)).
  set (err := match final_answer w with
              | Updated => []
              | UpdateFailed err => [EPrint [Lit "Error updating message on Slack: "; Lit err]]
              end).
  assert (Herr : sink_calls err = [] /\ filter is_final_summary err = []).
  { unfold err. destruct (final_answer w); split; reflexivity. }
  destruct Herr as [Herr1 Herr2].
  assert (Htrace :
            trace_of (let (p, f0) := after [streaming_banner_; opening_post_]
                                       ((tr ++ fin :: err)%list, st', f') in
                      let (tr0, _) := p in
                      match f0 with
                      | Go _ => (tr0, Ok tt)
                      | Return => (tr0, Ok tt)
                      | Exn e => (tr0, Raise e)
                      end)
            = ([streaming_banner_; opening_post_] ++ tr ++ fin :: err)%list).
  { destruct Hf' as [-> | ->]; reflexivity. }
  split; [destruct Hf' as [-> | ->]; reflexivity|].
  rewrite Htrace.
  split; [|split].
  - rewrite !sink_calls_app, Hsink.
    change (fin :: err) with ([fin] ++ err)%list.
    rewrite sink_calls_app, Herr1, app_nil_r. reflexivity.
  - rewrite !filter_app, Hfin.
    change (fin :: err) with ([fin] ++ err)%list.
    rewrite filter_app, Herr2. reflexivity.
  - exists ([streaming_banner_; opening_post_] ++ tr)%list.
    now rewrite <- app_assoc.
Qed.

(** C3, as the code behaves. With a sink configured, when Slack refuses
    the opening message the error is printed by [send_slack_message],
    but unpacking its [None] result raises a [TypeError] that leaves
    [stream_real_time_data]: no sample is requested and the final
    summary is not sent. *)
Theorem sink_open_failure_escapes (w : stream_world) (err : string) :
  str_truthy slack_channel = true ->
  post_answer w = PostFailed err ->
  stream_ w
  = ([streaming_banner_; opening_post_;
      EPrint [Lit "Error sending message to Slack: "; Lit err]],
     Raise (TypeError "cannot unpack non-iterable NoneType object")).
Proof.
  intros Hc Hpost.
  unfold stream_real_time_data, stream_body, run_body, starting.
  rewrite Hpost.
  unfold then_ at 1.
  rewrite then_print, then_assign, Hc, send_slack_message_returns, then_call_ok.
  reflexivity.
Qed.

End AggregatorFacts.

(** ** The concrete stream *)

Lemma sample_ticks_nonnegative : nonnegative_samples sample_ticks.
Proof.
  intros w d p field v Hin Hs Hp Hget. simpl in Hin.
  destruct Hin as [<-|[<-|[<-|[]]]]; simpl in Hs; inversion Hs; subst;
    simpl in Hp; destruct Hp as [<-|[]]; simpl in Hget;
    destruct (String.eqb field "requests"); inversion Hget; lia.
Qed.

Lemma running_total_invariant_witness :
  total_stats started = zero_stats
  /\ nonnegative_samples sample_ticks
  /\ Dict.get "requests"
       (total_stats (locals_after false "token" "svc" "production" "sid" 1
                       (Some "C42") None (firstn 2 sample_ticks) started))
     = Some 180%Z
  /\ (get_or_zero "requests"
        (total_stats (locals_after false "token" "svc" "production" "sid" 1
                        (Some "C42") None (firstn 1 sample_ticks) started))
      <= get_or_zero "requests"
           (total_stats (locals_after false "token" "svc" "production" "sid" 1
                           (Some "C42") None (firstn 3 sample_ticks) started)))%Z.
Proof.
  destruct (@running_total_invariant false "token" "svc" "production" "sid" 60%Z 1%Z
              (Some "C42") None sample_ticks started eq_refl)
    as [_ [_ [Hsum Hmono]]].
  split; [reflexivity|]. split; [exact sample_ticks_nonnegative|]. split.
  - rewrite (Hsum 2 "requests"); [reflexivity|simpl; auto].
  - apply (Hmono sample_ticks_nonnegative 1 3 "requests"); [lia|simpl; auto].
Defined.

Lemma final_summary_is_last_witness :
  str_truthy (Some "C42") = true
  /\ "1700000000.000100" <> ""
  /\ filter is_final_summary
       (trace_of (stream_real_time_data false "token" "svc" "production" "sid" 60 1
                    (Some "C42") None
                    (sample_world (Posted "C42" "1700000000.000100"))))
     = [final_update "svc" "production" "sid" (Some "C42") None
          "1700000000.000100" (stats5 0 80 0 0 0)].
Proof.
  split; [reflexivity|]. split; [discriminate|].
  refine (proj1 (proj2 (proj2
            (@final_summary_is_last false "token" "svc" "production" "sid" 60%Z 1%Z
               (Some "C42") None (sample_world (Posted "C42" "1700000000.000100"))
               "C42" "1700000000.000100" eq_refl eq_refl _)))).
  discriminate.
Defined.

Lemma sink_open_failure_escapes_witness :
  str_truthy (Some "C42") = true
  /\ result_of (stream_real_time_data false "token" "svc" "production" "sid" 60 1
                  (Some "C42") None (sample_world (PostFailed "channel_not_found")))
     = Raise (TypeError "cannot unpack non-iterable NoneType object")
  /\ sink_calls
       (trace_of (stream_real_time_data false "token" "svc" "production" "sid" 60 1
                    (Some "C42") None (sample_world (PostFailed "channel_not_found"))))
     = [opening_post "svc" "production" "sid" (Some "C42") None].
Proof.
  split; [reflexivity|].
  rewrite (@sink_open_failure_escapes false "token" "svc" "production" "sid" 60%Z 1%Z
             (Some "C42") None (sample_world (PostFailed "channel_not_found"))
             "channel_not_found" eq_refl eq_refl).
  split; reflexivity.
Defined.

Lemma empty_sample_aborts_witness :
  locals_after false "token" "svc" "production" "sid" 1 (Some "C42") None
    (firstn 1 sample_ticks
     ++ {| sample := HttpOk []; update_answer := Updated |} :: skipn 1 sample_ticks)%list
    started
  = locals_after false "token" "svc" "production" "sid" 1 (Some "C42") None
      (firstn 1 sample_ticks) started.
Proof.
  destruct (@empty_sample_aborts false "token" "svc" "production" "sid" 1%Z
              (Some "C42") None false Updated Updated
              (firstn 1 sample_ticks) (skipn 1 sample_ticks) started)
    as [_ [_ Hloop]].
  refine (proj1 (proj2 (Hloop _ _ eq_refl))).
Defined.

(** * Further properties *)

(** ** Environment names *)

Lemma existsb_eqb_In (s : string) (l : list string) :
  existsb (String.eqb s) l = true <-> In s l.
Proof.
  rewrite existsb_exists. split.
  - intros [x [Hin Heq]]. apply String.eqb_eq in Heq. now subst.
  - intros Hin. exists s. split; [exact Hin|apply String.eqb_refl].
Qed.

(** X1. Whatever [get_environment] returns is one of the valid
    environments, it is the lower-cased input, and it is returned
    unchanged when passed again; [None] and the empty string give
    [None], and every valid environment is accepted as it is. *)
Theorem get_environment_canonical (env_name : option string) :
  (forall e, get_environment env_name = Some e ->
             In e VALID_ENVIRONMENTS
             /\ (exists s, env_name = Some s /\ e = lower s)
             /\ get_environment (Some e) = Some e)
  /\ get_environment None = None
  /\ get_environment (Some "") = None
  /\ (forall e, In e VALID_ENVIRONMENTS -> get_environment (Some e) = Some e).
Proof.
  assert (Hvalid : forall e, In e VALID_ENVIRONMENTS -> get_environment (Some e) = Some e).
  { intros e He. simpl in He. destruct He as [<-|[<-|[<-|[]]]]; reflexivity. }
  split; [|split; [reflexivity|split; [reflexivity|exact Hvalid]]].
  intros e He. destruct env_name as [s|]; [|discriminate].
  unfold get_environment in He.
  destruct (negb (str_truthy (Some s))); [discriminate|].
  destruct (existsb (String.eqb (lower s)) VALID_ENVIRONMENTS) eqn:Ex; [|discriminate].
  injection He as <-. apply existsb_eqb_In in Ex.
  split; [exact Ex|]. split; [now exists s|]. now apply Hvalid.
Qed.

Lemma get_environment_canonical_witness :
  get_environment (Some "Production") = Some "production"
  /\ In "production" VALID_ENVIRONMENTS
  /\ get_environment (Some "production") = Some "production".
Proof.
  split; [reflexivity|].
  destruct (proj1 (get_environment_canonical (Some "Production")) "production" eq_refl)
    as [Hin [_ Hfix]].
  split; [exact Hin|exact Hfix].
Defined.

(** ** Prefixes *)

Lemma prefix_cons_inv (c : ascii) (p s : string) :
  String.prefix (String c p) s = true ->
  exists s', s = String c s' /\ String.prefix p s' = true.
Proof.
  destruct s as [|c' s']; simpl; [discriminate|].
  destruct (ascii_dec c c') as [<-|Hne]; [|discriminate].
  intros H. now exists s'.
Qed.

Lemma prefix_append (p s : string) : String.prefix p (p ++ s) = true.
Proof.
  induction p as [|c p IH]; simpl.
  - now destruct s.
  - destruct (ascii_dec c c); [exact IH|congruence].
Qed.

Lemma prefix_longer (s : string) (c : ascii) :
  String.prefix (s ++ String c EmptyString) s = false.
Proof.
  induction s as [|c' s IH]; simpl; [reflexivity|].
  destruct (ascii_dec c' c'); [exact IH|congruence].
Qed.

Lemma prefix_append_inv (p q s : string) :
  String.prefix (p ++ q) s = true ->
  exists s', s = p ++ s' /\ String.prefix q s' = true.
Proof.
  revert s. induction p as [|c p IH]; intros s H; simpl in *.
  - exists s. auto.
  - change (String c (p ++ q)) with (String c (p ++ q)) in H.
    apply prefix_cons_inv in H. destruct H as [s1 [-> H1]].
    destruct (IH s1 H1) as [s2 [-> H2]]. exists s2. auto.
Qed.

Lemma prefix_distinct_char (p s : string) (a b : ascii) :
  a <> b ->
  String.prefix (p ++ String a EmptyString) s = true ->
  String.prefix (p ++ String b EmptyString) s = false.
Proof.
  intros Hab H. apply prefix_append_inv in H. destruct H as [s' [-> H]].
  apply prefix_cons_inv in H. destruct H as [s'' [-> _]].
  induction p as [|c p IH]; simpl.
  - destruct (ascii_dec b a); [congruence|reflexivity].
  - destruct (ascii_dec c c); [exact IH|congruence].
Qed.

Lemma prefix_dot_append (e rest : string) :
  String.prefix (e ++ ".") (e ++ "." ++ rest) = true.
Proof.
  induction e as [|c e IH]; simpl.
  - now destruct rest.
  - destruct (ascii_dec c c); [exact IH|congruence].
Qed.

(** X2. Outside production, the name [construct_service_prefix] builds
    for an environment is kept by that environment's filter: an entry of
    the directory under that name, with its id, is an entry of the
    filtered directory. In production the name is returned unchanged. *)
Theorem construct_service_prefix_filtered (service_name e : string)
    (D : Dict.t string) (sid : string) :
  e <> "production" ->
  Dict.wf D ->
  Dict.get (construct_service_prefix service_name e) D = Some sid ->
  Dict.get (construct_service_prefix service_name e)
    (filter_services_by_environment e D) = Some sid
  /\ construct_service_prefix service_name "production" = service_name.
Proof.
  intros He Hwf Hget. split; [|reflexivity].
  rewrite filter_services_other by assumption.
  rewrite (DictFacts.get_filter
             (fun n => startswith n (e ++ ".") || startswith n (e ++ "-"))).
  unfold construct_service_prefix in *.
  destruct (String.eqb_spec e "production"); [congruence|].
  unfold startswith. rewrite prefix_dot_append. simpl. exact Hget.
Qed.

Lemma construct_service_prefix_filtered_witness :
  "dev" <> "production"
  /\ construct_service_prefix "prod svc" "dev" = "dev.prodsvc"
  /\ Dict.get "dev.prodsvc"
       (filter_services_by_environment "dev" [("dev.prodsvc", "id5"); ("other", "id6")])
     = Some "id5".
Proof.
  split; [discriminate|]. split; [reflexivity|].
  refine (proj1 (@construct_service_prefix_filtered "prod svc" "dev"
                   [("dev.prodsvc", "id5"); ("other", "id6")] "id5" _ _ eq_refl)).
  - discriminate.
  - unfold Dict.wf. simpl.
    repeat (constructor; [simpl; intuition discriminate|]). constructor.
Defined.

(** X3. The environments do not partition the directory: an entry
    whose name starts with "dev-" (or "qa-") belongs both to the
    production directory and to the dev (or qa) directory. *)
Theorem hyphen_names_in_two_environments (e name sid : string) (D : Dict.t string) :
  e = "dev" \/ e = "qa" ->
  Dict.wf D ->
  Dict.get name D = Some sid ->
  startswith name (e ++ "-") = true ->
  Dict.get name (filter_services_by_environment "production" D) = Some sid
  /\ Dict.get name (filter_services_by_environment e D) = Some sid.
Proof.
  intros He Hwf Hget Hpre. split.
  - rewrite filter_services_production by assumption.
    rewrite (DictFacts.get_filter
               (fun n => negb (startswith n "dev.") && negb (startswith n "qa."))).
    assert (Hdev : startswith name "dev." = false /\ startswith name "qa." = false).
    { unfold startswith in *. destruct He as [-> | ->]; split.
      - exact (@prefix_distinct_char "dev" name "-" "." ltac:(discriminate) Hpre).
      - apply prefix_append_inv with (p := "d") in Hpre.
        destruct Hpre as [s' [-> _]]. reflexivity.
      - apply prefix_append_inv with (p := "q") in Hpre.
        destruct Hpre as [s' [-> _]]. reflexivity.
      - exact (@prefix_distinct_char "qa" name "-" "." ltac:(discriminate) Hpre). }
    destruct Hdev as [-> ->]. exact Hget.
  - rewrite filter_services_other
      by (assumption || (destruct He as [-> | ->]; discriminate)).
    rewrite (DictFacts.get_filter
               (fun n => startswith n (e ++ ".") || startswith n (e ++ "-"))).
    rewrite Hpre, orb_true_r. exact Hget.
Qed.

Lemma hyphen_names_in_two_environments_witness :
  Dict.get "dev-api" (filter_services_by_environment "production" sample_directory)
  = Some "id4"
  /\ Dict.get "dev-api" (filter_services_by_environment "dev" sample_directory)
     = Some "id4".
Proof.
  apply (@hyphen_names_in_two_environments "dev" "dev-api" "id4" sample_directory).
  - now left.
  - exact sample_directory_wf.
  - reflexivity.
  - reflexivity.
Defined.

(** ** Best match *)

Lemma py_max_from_top {A} (key : A -> nat) (l : list A) (best : A) :
  (forall x, In x l -> key x <= key best) -> py_max_from key best l = best.
Proof.
  revert best. induction l as [|x l IH]; intros best Hle; simpl; [reflexivity|].
  assert (Hx : key x <= key best) by (apply Hle; now left).
  destruct (Nat.ltb_spec (key best) (key x)) as [Hlt|_]; [lia|].
  apply IH. intros y Hy. apply Hle. now right.
Qed.

(** The head of the stable descending sort is the first element with the
    greatest score. *)
Lemma sort_desc_head (l : list (string * nat)) (h : string * nat)
    (t : list (string * nat)) :
  sort_desc l = h :: t ->
  exists before after_,
    l = (before ++ h :: after_)%list
    /\ (forall x, In x before -> snd x < snd h)
    /\ (forall x, In x after_ -> snd x <= snd h).
Proof.
  revert h t. induction l as [|x l IH]; intros h t Hs; [discriminate|].
  simpl in Hs. destruct (sort_desc l) as [|h' t'] eqn:Es.
  - assert (l = []) as ->.
    { destruct l as [|y l']; [reflexivity|].
      assert (Hin : In y (sort_desc (y :: l'))) by (apply (sort_desc_In (fun _ _ => 0)); now left).
      rewrite Es in Hin. destruct Hin. }
    simpl in Hs. injection Hs as <- <-.
    exists [], []. repeat split; simpl; tauto.
  - destruct (IH h' t' eq_refl) as (before & after_ & -> & Hb & Ha).
    simpl in Hs. destruct (Nat.leb_spec (snd h') (snd x)) as [Hle|Hgt].
    + injection Hs as <- <-. exists [], (before ++ h' :: after_)%list.
      split; [reflexivity|]. split; [simpl; tauto|].
      intros y Hy. apply in_app_or in Hy. destruct Hy as [Hy|[<-|Hy]].
      * specialize (Hb y Hy). lia.
      * exact Hle.
      * specialize (Ha y Hy). lia.
    + injection Hs as <- _. exists (x :: before), after_.
      split; [reflexivity|]. split; [|exact Ha].
      intros y [<-|Hy]; [exact Hgt|now apply Hb].
Qed.

Section BestMatchFacts.
Variable WRatio : string -> string -> nat.

Lemma scored_split (query : string) (choices : list string)
    (before after_ : list (string * nat)) (h : string * nat) :
  map (fun choice => (choice, WRatio query choice)) choices
  = (before ++ h :: after_)%list ->
  choices = (map fst before ++ fst h :: map fst after_)%list
  /\ snd h = WRatio query (fst h)
  /\ (forall k, In k (map fst before) ->
                exists x, In x before /\ fst x = k /\ snd x = WRatio query k)
  /\ (forall k, In k (map fst after_) ->
                exists x, In x after_ /\ fst x = k /\ snd x = WRatio query k).
Proof.
  intros Hmap.
  assert (Hall : forall x, In x (before ++ h :: after_)%list -> snd x = WRatio query (fst x)).
  { intros x Hx. rewrite <- Hmap in Hx. apply in_map_iff in Hx.
    destruct Hx as [c [<- _]]. reflexivity. }
  split.
  - rewrite <- (map_id choices) at 1.
    replace (map (fun x => x) choices)
      with (map fst (map (fun choice => (choice, WRatio query choice)) choices))
      by (rewrite map_map; reflexivity).
    rewrite Hmap, map_app. reflexivity.
  - split; [apply Hall, in_or_app; right; now left|].
    split; intros k Hk; apply in_map_iff in Hk; destruct Hk as [x [<- Hx]];
      exists x; (split; [exact Hx|split; [reflexivity|]]);
      apply Hall, in_or_app; [now left|right; now right].
Qed.

(** X4. On the fuzzy path (outside production, or in production when
    no key has the dotted prefix) the name returned is the first key, in
    directory order, among those with the greatest score: every key
    before it scores strictly less and every key after it scores at
    most as much. *)
Theorem get_best_match_first_maximal (name : string) (D : Dict.t string)
    (env m : string) :
  env <> "production"
  \/ (forall k, In k (Dict.keys D) -> startswith k (name ++ ".") = false) ->
  get_best_match WRatio name D env = Ok m ->
  exists before after_,
    Dict.keys D = (before ++ m :: after_)%list
    /\ (forall k, In k before -> WRatio name k < WRatio name m)
    /\ (forall k, In k after_ -> WRatio name k <= WRatio name m).
Proof.
  intros Hpath Hm. unfold get_best_match in Hm.
  assert (Hfind : (if String.eqb env "production"
                   then find (fun n => startswith n (name ++ ".")) (Dict.keys D)
                   else None) = None).
  { destruct (String.eqb_spec env "production") as [->|Hne]; [|reflexivity].
    destruct Hpath as [Hp|Hp]; [congruence|].
    destruct (find _ (Dict.keys D)) as [k|] eqn:Ef; [|reflexivity].
    apply find_some in Ef. destruct Ef as [Hin Hk].
    rewrite (Hp k Hin) in Hk. discriminate. }
  rewrite Hfind in Hm. unfold extract in Hm.
  rewrite extractWithoutOrder_zero in Hm.
  destruct (sort_desc (map (fun choice => (choice, WRatio name choice)) (Dict.keys D)))
    as [|h t] eqn:Es; [discriminate|].
  destruct (@sort_desc_head _ h t Es) as (before & after_ & Hsplit & Hb & Ha).
  rewrite (firstn_cons 4 h t) in Hm. cbn [py_max] in Hm.
  rewrite py_max_from_top in Hm.
  - injection Hm as <-.
    destruct (@scored_split name (Dict.keys D) before after_ h Hsplit) as (Hkeys & Hh & Hkb & Hka).
    exists (map fst before), (map fst after_). split; [exact Hkeys|].
    split; intros k Hk.
    + destruct (Hkb k Hk) as [x [Hx [<- Hsx]]]. rewrite <- Hsx, <- Hh. now apply Hb.
    + destruct (Hka k Hk) as [x [Hx [<- Hsx]]]. rewrite <- Hsx, <- Hh. now apply Ha.
  - intros x Hx. apply In_firstn in Hx.
    assert (Hin : In x (sort_desc (map (fun choice => (choice, WRatio name choice))
                                       (Dict.keys D))))
      by (rewrite Es; now right).
    apply -> (sort_desc_In WRatio) in Hin. rewrite Hsplit in Hin.
    apply in_app_or in Hin. destruct Hin as [Hin|[<-|Hin]].
    + specialize (Hb x Hin). lia.
    + lia.
    + now apply Ha.
Qed.

(** X5. In production, when some key starts with the input name
    followed by a dot, the name returned starts with that prefix and is
    never the input name itself, even when a service with exactly the
    input name is in the filtered directory. *)
Theorem get_best_match_skips_exact_name (name : string) (D : Dict.t string) (m : string) :
  (exists k, In k (Dict.keys D) /\ startswith k (name ++ ".") = true) ->
  get_best_match WRatio name D "production" = Ok m ->
  startswith m (name ++ ".") = true /\ m <> name.
Proof.
  intros [k0 [Hin Hpre]] Hm. unfold get_best_match in Hm. simpl in Hm.
  destruct (find (fun n => startswith n (name ++ ".")) (Dict.keys D)) as [k|] eqn:Ef.
  - injection Hm as <-. apply find_some in Ef. destruct Ef as [_ Hk].
    split; [exact Hk|]. intros ->. unfold startswith in Hk.
    rewrite prefix_longer in Hk. discriminate.
  - pose proof (find_none _ _ Ef k0 Hin) as Hn. simpl in Hn. congruence.
Qed.
End BestMatchFacts.

(** Scores by the length of the candidate. *)
Lemma get_best_match_first_maximal_witness :
  get_best_match (fun _ c => String.length c) "zz"
    [("a", "1"); ("bbb", "2"); ("ccc", "3"); ("dd", "4")] "dev" = Ok "bbb"
  /\ exists before after_,
       ["a"; "bbb"; "ccc"; "dd"] = (before ++ "bbb" :: after_)%list
       /\ (forall k, In k before -> String.length k < 3)
       /\ (forall k, In k after_ -> String.length k <= 3).
Proof.
  split; [reflexivity|].
  apply (@get_best_match_first_maximal (fun _ c => String.length c) "zz"
           [("a", "1"); ("bbb", "2"); ("ccc", "3"); ("dd", "4")] "dev" "bbb").
  - left. discriminate.
  - reflexivity.
Defined.

Lemma get_best_match_skips_exact_name_witness :
  get_best_match disjoint_score "api"
    [("api", "id1"); ("api.example.com", "id7")] "production" = Ok "api.example.com"
  /\ "api.example.com" <> "api".
Proof.
  split; [reflexivity|].
  apply (@get_best_match_skips_exact_name disjoint_score "api"
           [("api", "id1"); ("api.example.com", "id7")] "api.example.com").
  - exists "api.example.com". split; [simpl; auto|reflexivity].
  - reflexivity.
Defined.

(** ** Directory cache *)

Section CacheMore.
Variable text : Type.
Variable json_dumps : json -> text.
Variable json_loads : text -> option json.
Variable isoformat : Z -> string.
Variable fromisoformat : string -> option datetime.

(** X6. [save_cache] never raises and touches no path but
    [cache_file]. When the file can be written, nothing is printed and
    the file holds the dump of the object made of the timestamp and the
    data, whatever it held before. When the save fails, the one line
    that names the file and the exception is printed; what the file
    holds then is not stated, since [open] in mode 'w' may have emptied
    it before the failure. *)
Theorem save_cache_frame (now : Z) (fs : filesystem text) (cache_file : string)
    (data : json) :
  exists fs',
    result_of (save_cache json_dumps isoformat now fs cache_file data) = Ok fs'
    /\ (forall p, p <> cache_file -> file_at fs' p = file_at fs p)
    /\ (forall p, writable fs' p = writable fs p)
    /\ (writable fs cache_file = true ->
        trace_of (save_cache json_dumps isoformat now fs cache_file data) = []
        /\ file_at fs' cache_file
           = Stored (json_dumps (JObj [("timestamp", JStr (isoformat now));
                                       ("data", data)])))
    /\ (writable fs cache_file = false ->
        trace_of (save_cache json_dumps isoformat now fs cache_file data)
        = [EPrint [Lit "Error saving cache to "; Lit cache_file; Lit ": ";
                   Exc OSError]]).
Proof.
  unfold save_cache, write_file. destruct (writable fs cache_file) eqn:Hw; simpl.
  - eexists. split; [reflexivity|]. simpl.
    split; [|split; [reflexivity|split; [|discriminate]]].
    + intros p Hp. destruct (String.eqb_spec p cache_file); congruence.
    + intros _. split; [reflexivity|]. now rewrite String.eqb_refl.
  - exists fs. repeat split; auto; discriminate.
Qed.

(** What [load_cache] prints: nothing, or the one line that reports the
    exception it caught. *)
Lemma load_cache_trace (now : Z) (fs : filesystem text) (cache_file : string) :
  trace_of (load_cache json_loads fromisoformat now fs cache_file) = []
  \/ exists e,
       load_cache json_loads fromisoformat now fs cache_file
       = ([EPrint [Lit "Error loading cache from "; Lit cache_file; Lit ": "; Exc e]],
          Ok JNull).
Proof.
  unfold load_cache, path_exists, read_file, json_load.
  destruct (file_at fs cache_file) as [| |content]; simpl; eauto.
  destruct (json_loads content) as [cache_data|]; simpl; eauto.
  destruct (getitem cache_data "timestamp") as [tsv|e]; simpl; eauto.
  unfold datetime_fromisoformat.
  destruct tsv as [| | |s| |]; simpl; eauto.
  destruct (fromisoformat s) as [[ts|ts]|]; simpl; eauto.
  destruct (now - ts <? timedelta_hours CACHE_EXPIRY_HOURS)%Z; simpl; eauto.
  destruct (getitem cache_data "data") as [v|e]; simpl; eauto.
Qed.

(** X7. A missing cache file and an expired entry are silent misses:
    [load_cache] returns [None] and prints nothing. A file that cannot be
    read and a file that is not JSON are reported: [load_cache] returns
    [None] after printing the one line that names the file and the
    exception. *)
Theorem load_cache_silent_or_reported (now : Z) (fs : filesystem text)
    (cache_file : string) :
  (file_at fs cache_file = Missing ->
   load_cache json_loads fromisoformat now fs cache_file = ([], Ok JNull))
  /\ (forall content cache_data s ts,
        file_at fs cache_file = Stored content ->
        json_loads content = Some cache_data ->
        getitem cache_data "timestamp" = Ok (JStr s) ->
        fromisoformat s = Some (Naive ts) ->
        (now - ts >= timedelta_hours CACHE_EXPIRY_HOURS)%Z ->
        load_cache json_loads fromisoformat now fs cache_file = ([], Ok JNull))
  /\ (file_at fs cache_file = Unreadable ->
      load_cache json_loads fromisoformat now fs cache_file
      = ([EPrint [Lit "Error loading cache from "; Lit cache_file; Lit ": ";
                  Exc OSError]], Ok JNull))
  /\ (forall content,
        file_at fs cache_file = Stored content ->
        json_loads content = None ->
        load_cache json_loads fromisoformat now fs cache_file
        = ([EPrint [Lit "Error loading cache from "; Lit cache_file; Lit ": ";
                    Exc JSONDecodeError]], Ok JNull)).
Proof.
  unfold load_cache, path_exists, read_file, json_load.
  split; [intros ->; reflexivity|].
  split.
  - intros content cache_data s ts -> Hl Hts Hiso Hold. simpl.
    rewrite Hl. simpl. rewrite Hts. simpl. rewrite Hiso. simpl.
    destruct (Z.ltb_spec (now - ts) (timedelta_hours CACHE_EXPIRY_HOURS)); [lia|].
    reflexivity.
  - split; [intros ->; reflexivity|].
    intros content -> Hl. simpl. rewrite Hl. reflexivity.
Qed.

Hypothesis json_roundtrip : forall v, json_loads (json_dumps v) = Some v.
Hypothesis iso_roundtrip : forall t, fromisoformat (isoformat t) = Some (Naive t).

Lemma load_after_save (t_save t_load : Z) (fs : filesystem text)
    (cache_file : string) (data : json) :
  writable fs cache_file = true ->
  exists fs',
    save_cache json_dumps isoformat t_save fs cache_file data = ([], Ok fs')
    /\ load_cache json_loads fromisoformat t_load fs' cache_file
       = ([], Ok (if (t_load - t_save <? timedelta_hours CACHE_EXPIRY_HOURS)%Z
                  then data else JNull)).
Proof.
  intros Hw. unfold save_cache, write_file. rewrite Hw. simpl.
  eexists. split; [reflexivity|].
  unfold load_cache, path_exists, read_file, json_load. simpl.
  rewrite String.eqb_refl. simpl.
  rewrite json_roundtrip. simpl.
  rewrite iso_roundtrip. simpl.
  now destruct (t_load - t_save <? timedelta_hours CACHE_EXPIRY_HOURS)%Z.
Qed.

End CacheMore.

Lemma load_cache_silent_or_reported_witness :
  load_cache (fun c => c) decimal_fromisoformat (25 * one_hour) stale_disk CACHE_FILE
  = ([], Ok JNull).
Proof.
  refine (proj1 (proj2 (@load_cache_silent_or_reported (option json) (fun c => c)
                          decimal_fromisoformat (25 * one_hour) stale_disk CACHE_FILE))
            _ _ (decimal_isoformat 0) 0%Z eq_refl eq_refl eq_refl _ _).
  - reflexivity.
  - vm_compute. discriminate.
Defined.


(** ** Service directory fetcher *)

Lemma requests_of_app (tr1 tr2 : list event) :
  requests_of (tr1 ++ tr2)%list = (requests_of tr1 ++ requests_of tr2)%list.
Proof. apply filter_app. Qed.

Lemma requests_of_gets (url : string) (pages : list nat) :
  requests_of (map (fun p => EGet url (Some p)) pages)
  = map (fun p => EGet url (Some p)) pages.
Proof. induction pages as [|p ps IH]; simpl; [reflexivity|now rewrite IH]. Qed.



Lemma truthy_json_of_services (d : Dict.t string) :
  truthy (json_of_services d) = match d with [] => false | _ :: _ => true end.
Proof. now destruct d. Qed.

Section FetcherMore.
Variable KUBIYA_DEBUG : bool.
Variable text : Type.
Variable json_dumps : json -> text.
Variable json_loads : text -> option json.
Variable isoformat : Z -> string.
Variable fromisoformat : string -> option datetime.

Local Abbreviation list_services_ :=
  (list_services KUBIYA_DEBUG json_dumps json_loads isoformat fromisoformat).
Local Abbreviation load_cache_ := (load_cache json_loads fromisoformat).
Local Abbreviation save_cache_ := (save_cache json_dumps isoformat).

Lemma load_cache_no_request (now : Z) (fs : filesystem text) (cache_file : string) :
  requests_of (trace_of (load_cache_ now fs cache_file)) = [].
Proof.
  destruct (load_cache_trace json_loads fromisoformat now fs cache_file) as [->|[e ->]];
    reflexivity.
Qed.

Lemma save_cache_no_request (now : Z) (fs : filesystem text) (cache_file : string)
    (data : json) :
  requests_of (trace_of (save_cache_ now fs cache_file data)) = [].
Proof. unfold save_cache, write_file. now destruct (writable fs cache_file). Qed.

(** On a cache miss that ends at page [n + 1]: the result and the
    requests made. *)
Lemma list_services_miss (fuel n : nat) (t_load t_save : Z)
    (fs : filesystem text) (provider : nat -> page_reply) (cached : json) :
  result_of (load_cache_ t_load fs CACHE_FILE) = Ok cached ->
  truthy cached = false ->
  (forall i, i < n -> exists s ss, provider (1 + i) = PageOk (s :: ss)) ->
  provider (1 + n) = PageError \/ provider (1 + n) = PageOk [] ->
  n < fuel ->
  exists m fs',
    list_services_ fuel t_load t_save fs provider = Some m
    /\ result_of m = Ok (json_of_services (accumulated provider 1 n Dict.empty), fs')
    /\ result_of (save_cache_ t_save fs CACHE_FILE
                    (json_of_services (accumulated provider 1 n Dict.empty))) = Ok fs'
    /\ requests_of (trace_of m)
       = map (fun p => EGet (HISTORICAL_BASE_URL ++ "/service") (Some p)) (seq 1 (S n)).
Proof.
  intros Hload Hmiss Hpages Hstop Hfuel.
  destruct (save_cache_returns json_dumps isoformat t_save fs CACHE_FILE
              (json_of_services (accumulated provider 1 n Dict.empty)))
    as [fs' [Hsave _]].
  unfold list_services. rewrite Hload, Hmiss.
  rewrite (@fetch_pages_stops provider n fuel 1 Dict.empty Hpages Hstop Hfuel).
  eexists. exists fs'. split; [reflexivity|].
  unfold store_and_return.
  pose proof (load_cache_no_request t_load fs CACHE_FILE) as Hq0.
  pose proof (save_cache_no_request t_save fs CACHE_FILE
                (json_of_services (accumulated provider 1 n Dict.empty))) as Hq2.
  destruct (load_cache json_loads fromisoformat t_load fs CACHE_FILE) as [tr0 r0].
  simpl in Hload, Hq0. subst r0.
  destruct (save_cache json_dumps isoformat t_save fs CACHE_FILE
              (json_of_services (accumulated provider 1 n Dict.empty)))
    as [tr2 r2].
  simpl in Hsave, Hq2. subst r2.
  split; [destruct Hstop as [-> | ->]; reflexivity|].
  split; [reflexivity|].
  set (gets := map (fun p => EGet (HISTORICAL_BASE_URL ++ "/service") (Some p))
                   (seq 1 (S n))).
  assert (Hgets : requests_of gets = gets) by apply requests_of_gets.
  destruct Hstop as [-> | ->]; unfold replay, bind, print, emit, ret, stop_of;
    cbn [trace_of fst is_RequestException];
    rewrite ?requests_of_app, Hq0, Hgets; cbn [app];
    rewrite ?requests_of_app, ?Hq2, ?app_nil_r; try reflexivity.
  all: cbn [requests_of filter is_get app]; rewrite ?Hq2, ?app_nil_r; reflexivity.
Qed.

(** X9. With a cached object that is not falsy, [list_services] returns
    it without a single HTTP request and leaves the file system as it
    was, whatever the provider would answer. *)
Theorem list_services_cache_hit (fuel : nat) (t_load t_save : Z)
    (fs : filesystem text) (provider : nat -> page_reply) (cached : json) :
  result_of (load_cache_ t_load fs CACHE_FILE) = Ok cached ->
  truthy cached = true ->
  exists m,
    list_services_ fuel t_load t_save fs provider = Some m
    /\ result_of m = Ok (cached, fs)
    /\ requests_of (trace_of m) = [].
Proof.
  intros Hload Hhit. unfold list_services. rewrite Hload, Hhit.
  eexists. split; [reflexivity|].
  pose proof (load_cache_no_request t_load fs CACHE_FILE) as Hq0.
  destruct (load_cache json_loads fromisoformat t_load fs CACHE_FILE) as [tr0 r0].
  simpl in Hload, Hq0. subst r0.
  unfold debug_print. destruct KUBIYA_DEBUG; split; try reflexivity;
    unfold bind, print, emit, ret; cbn [trace_of fst];
    rewrite ?requests_of_app, Hq0; reflexivity.
Qed.

(** X10. On a cache miss the pages are requested one at a time, page
    1 first: when pages 1 .. n hold services and page n + 1 fails or is
    empty, the requests made are exactly those for pages 1, 2, ..., n + 1
    in this order. Nothing is requested twice and nothing after the page
    that ends the fetch. *)
Theorem list_services_requests_in_order (fuel n : nat) (t_load t_save : Z)
    (fs : filesystem text) (provider : nat -> page_reply) (cached : json) :
  result_of (load_cache_ t_load fs CACHE_FILE) = Ok cached ->
  truthy cached = false ->
  (forall i, i < n -> exists s ss, provider (1 + i) = PageOk (s :: ss)) ->
  provider (1 + n) = PageError \/ provider (1 + n) = PageOk [] ->
  n < fuel ->
  exists m,
    list_services_ fuel t_load t_save fs provider = Some m
    /\ requests_of (trace_of m)
       = map (fun p => EGet (HISTORICAL_BASE_URL ++ "/service") (Some p)) (seq 1 (S n)).
Proof.
  intros Hload Hmiss Hpages Hstop Hfuel.
  destruct (list_services_miss t_load t_save fs provider Hload Hmiss Hpages Hstop Hfuel)
    as (m & fs' & Hm & _ & _ & Hreq).
  exists m. auto.
Qed.

Hypothesis json_roundtrip : forall v, json_loads (json_dumps v) = Some v.
Hypothesis iso_roundtrip : forall t, fromisoformat (isoformat t) = Some (Naive t).


(** X12. An empty directory is written to the cache but never served
    from it. When the very first page request fails and the cache file
    can be written, the call returns the empty directory and stores it;
    the next call, however soon, finds that entry falsy and fetches
    again, starting at page 1. *)
Theorem empty_directory_is_refetched (fuel1 fuel2 n : nat)
    (t_load1 t_save1 t_load2 t_save2 : Z) (fs : filesystem text)
    (provider1 provider2 : nat -> page_reply) (cached : json) :
  result_of (load_cache_ t_load1 fs CACHE_FILE) = Ok cached ->
  truthy cached = false ->
  provider1 1 = PageError ->
  0 < fuel1 ->
  writable fs CACHE_FILE = true ->
  (forall i, i < n -> exists s ss, provider2 (1 + i) = PageOk (s :: ss)) ->
  provider2 (1 + n) = PageError \/ provider2 (1 + n) = PageOk [] ->
  n < fuel2 ->
  exists m1 m2 fs1 fs2,
    list_services_ fuel1 t_load1 t_save1 fs provider1 = Some m1
    /\ result_of m1 = Ok (JObj [], fs1)
    /\ file_at fs1 CACHE_FILE
       = Stored (json_dumps (JObj [("timestamp", JStr (isoformat t_save1));
                                   ("data", JObj [])]))
    /\ list_services_ fuel2 t_load2 t_save2 fs1 provider2 = Some m2
    /\ result_of m2 = Ok (json_of_services (accumulated provider2 1 n Dict.empty), fs2)
    /\ requests_of (trace_of m2)
       = map (fun p => EGet (HISTORICAL_BASE_URL ++ "/service") (Some p)) (seq 1 (S n)).
Proof.
  intros Hload Hmiss Hstop1 Hfuel1 Hw Hpages2 Hstop2 Hfuel2.
  assert (Hnone : forall i, i < 0 -> exists s ss, provider1 (1 + i) = PageOk (s :: ss))
    by (intros i Hi; lia).
  destruct (@list_services_miss fuel1 0 t_load1 t_save1 fs provider1 cached
              Hload Hmiss Hnone (or_introl Hstop1) Hfuel1)
    as (m1 & fs1 & Hm1 & Hr1 & Hsave & _).
  cbn [accumulated] in Hr1, Hsave.
  destruct (load_after_save json_dumps json_loads isoformat fromisoformat
              json_roundtrip iso_roundtrip t_save1 t_load2 fs CACHE_FILE
              (json_of_services Dict.empty) Hw)
    as [fs1' [Hsave' Hload2]].
  rewrite Hsave' in Hsave. simpl in Hsave. injection Hsave as <-.
  assert (Hl2 : exists cached2,
             result_of (load_cache_ t_load2 fs1' CACHE_FILE) = Ok cached2
             /\ truthy cached2 = false).
  { rewrite Hload2.
    destruct (t_load2 - t_save1 <? timedelta_hours CACHE_EXPIRY_HOURS)%Z;
      eexists; split; reflexivity. }
  destruct Hl2 as (cached2 & Hl2 & Hmiss2).
  destruct (list_services_miss t_load2 t_save2 fs1' provider2 Hl2 Hmiss2 Hpages2
              Hstop2 Hfuel2)
    as (m2 & fs2 & Hm2 & Hr2 & _ & Hreq2).
  exists m1, m2, fs1', fs2.
  split; [exact Hm1|]. split; [exact Hr1|].
  split; [|split; [exact Hm2|split; [exact Hr2|exact Hreq2]]].
  unfold save_cache, write_file in Hsave'. rewrite Hw in Hsave'. simpl in Hsave'.
  injection Hsave' as <-. reflexivity.
Qed.
End FetcherMore.

Lemma find_append {A} (p : A -> bool) (l1 l2 : list A) :
  find p (l1 ++ l2)%list
  = match find p l1 with
    | Some x => Some x
    | None => find p l2
    end.
Proof.
  induction l1 as [|x l1 IH]; simpl; [reflexivity|].
  now destruct (p x).
Qed.

Lemma wf_set (k v : string) (d : Dict.t string) :
  Dict.wf d -> Dict.wf (Dict.set k v d).
Proof.
  unfold Dict.wf. intros Hwf.
  destruct (in_dec string_dec k (Dict.keys d)) as [Hin|Hout].
  - now rewrite DictFacts.keys_set_present.
  - rewrite DictFacts.set_fresh by assumption.
    unfold Dict.keys in *. rewrite map_app. simpl.
    apply NoDup_app; [exact Hwf|repeat constructor; simpl; tauto|].
    intros a Ha [<-|[]]. contradiction.
Qed.

Lemma fold_set_wf (services : list service) (d : Dict.t string) :
  Dict.wf d ->
  Dict.wf (fold_left (fun acc s => Dict.set (name s) (id s) acc) services d).
Proof.
  revert d. induction services as [|s ss IH]; intros d Hwf; simpl; [exact Hwf|].
  apply IH. now apply wf_set.
Qed.

Lemma fold_set_get (services : list service) (d : Dict.t string) (k : string) :
  Dict.get k (fold_left (fun acc s => Dict.set (name s) (id s) acc) services d)
  = match last_listed_id k services with
    | Some i => Some i
    | None => Dict.get k d
    end.
Proof.
  revert d. induction services as [|s ss IH]; intros d; [reflexivity|].
  cbn [fold_left]. rewrite IH. unfold last_listed_id. cbn [rev].
  rewrite find_append.
  destruct (find (fun s0 => String.eqb k (name s0)) (rev ss)) as [s1|]; [reflexivity|].
  cbn [find]. destruct (String.eqb_spec k (name s)) as [->|Hne].
  - now rewrite DictFacts.get_set_same.
  - now rewrite DictFacts.get_set_other.
Qed.

Lemma accumulated_listed (provider : nat -> page_reply) (n : nat) :
  forall first d,
    accumulated provider first n d
    = fold_left (fun acc s => Dict.set (name s) (id s) acc) (listed provider first n) d.
Proof.
  induction n as [|n IH]; intros first d; [reflexivity|].
  cbn [accumulated listed]. rewrite fold_left_app. apply IH.
Qed.

(** X13. The fetch loop ends and the directory it builds has no name
    twice and gives each name the id of its last listing: when pages
    1 .. n hold services and page n + 1 fails or is empty, the loop
    returns after n + 1 requests, a name listed more than once over
    pages 1 .. n keeps the id listed last, and a name never listed is
    absent. *)
Theorem fetch_pages_last_listing_wins (fuel n : nat) (provider : nat -> page_reply) :
  (forall i, i < n -> exists s ss, provider (1 + i) = PageOk (s :: ss)) ->
  provider (1 + n) = PageError \/ provider (1 + n) = PageOk [] ->
  n < fuel ->
  exists tr d c,
    fetch_pages fuel provider 1 Dict.empty = Some (tr, d, c)
    /\ length tr = S n
    /\ Dict.wf d
    /\ forall k, Dict.get k d = last_listed_id k (listed provider 1 n).
Proof.
  intros Hpages Hstop Hfuel.
  rewrite (@fetch_pages_stops provider n fuel 1 Dict.empty Hpages Hstop Hfuel).
  do 3 eexists. split; [reflexivity|].
  split; [now rewrite length_map, length_seq|].
  rewrite accumulated_listed. split.
  - apply fold_set_wf. constructor.
  - intros k. rewrite fold_set_get.
    now destruct (last_listed_id k (listed provider 1 n)).
Qed.

(** The cache written at time 0 is read one hour later. *)
Lemma list_services_cache_hit_witness :
  exists m,
    list_services false Some (fun c => c) decimal_isoformat decimal_fromisoformat
      0 one_hour one_hour stale_disk dead_provider = Some m
    /\ result_of m = Ok (json_of_services sample_directory, stale_disk)
    /\ requests_of (trace_of m) = [].
Proof.
  apply (@list_services_cache_hit false (option json) Some (fun c => c)
           decimal_isoformat decimal_fromisoformat 0 one_hour one_hour
           stale_disk dead_provider (json_of_services sample_directory)).
  - reflexivity.
  - reflexivity.
Defined.

Lemma list_services_requests_in_order_witness :
  exists m,
    list_services false Some (fun c => c) decimal_isoformat decimal_fromisoformat
      5 0 0 empty_disk failing_provider = Some m
    /\ requests_of (trace_of m)
       = [EGet "https://api.fastly.com/service" (Some 1);
          EGet "https://api.fastly.com/service" (Some 2)].
Proof.
  apply (@list_services_requests_in_order false (option json) Some (fun c => c)
           decimal_isoformat decimal_fromisoformat 5 1 0%Z 0%Z
           empty_disk failing_provider JNull).
  - reflexivity.
  - reflexivity.
  - intros i Hi. assert (i = 0) as -> by lia. simpl. eauto.
  - left. reflexivity.
  - lia.
Defined.


Lemma empty_directory_is_refetched_witness :
  exists m1 m2 fs1 fs2,
    list_services false Some (fun c => c) decimal_isoformat decimal_fromisoformat
      5 0 0 empty_disk dead_provider = Some m1
    /\ result_of m1 = Ok (JObj [], fs1)
    /\ list_services false Some (fun c => c) decimal_isoformat decimal_fromisoformat
         5 one_hour one_hour fs1 failing_provider = Some m2
    /\ result_of m2
       = Ok (JObj [("prod-svc", JStr "id1"); ("dev.prod-svc", JStr "id2")], fs2)
    /\ requests_of (trace_of m2)
       = [EGet "https://api.fastly.com/service" (Some 1);
          EGet "https://api.fastly.com/service" (Some 2)].
Proof.
  destruct (@empty_directory_is_refetched false (option json) Some (fun c => c)
              decimal_isoformat decimal_fromisoformat
              (fun v => eq_refl) decimal_iso_roundtrip
              5 5 1 0%Z 0%Z one_hour one_hour empty_disk
              dead_provider failing_provider JNull)
    as (m1 & m2 & fs1 & fs2 & H1 & H2 & _ & H3 & H4 & H5).
  - reflexivity.
  - reflexivity.
  - reflexivity.
  - lia.
  - reflexivity.
  - intros i Hi. assert (i = 0) as -> by lia. simpl. eauto.
  - left. reflexivity.
  - lia.
  - exists m1, m2, fs1, fs2. auto.
Defined.

Lemma fetch_pages_last_listing_wins_witness :
  exists tr d c,
    fetch_pages 5 relisting_provider 1 Dict.empty = Some (tr, d, c)
    /\ length tr = 3
    /\ Dict.wf d
    /\ forall k, Dict.get k d = last_listed_id k (listed relisting_provider 1 2).
Proof.
  apply (@fetch_pages_last_listing_wins 5 2 relisting_provider).
  - intros i Hi. destruct i as [|[|i]]; [simpl; eauto|simpl; eauto|lia].
  - right. reflexivity.
  - lia.
Defined.


(** ** Rendering *)

Lemma map_on_keys {V B} (g : string -> B) (d : Dict.t V) :
  map (fun kv => g (fst kv)) d = map g (Dict.keys d).
Proof. unfold Dict.keys. now rewrite map_map. Qed.

(** X14. The Slack blocks never show the running totals: of the
    [summary] argument only the field names are used, so two summaries
    with the same fields give the same blocks, for interval updates and
    for the final summary alike. What is shown is the interval snapshot
    passed beside it. *)
Theorem blocks_ignore_totals (summary1 summary2 interval_summary : Dict.t Z)
    (service_name environment service_id : string)
    (previous_interval_summary : option (Dict.t Z)) :
  Dict.keys summary1 = Dict.keys summary2 ->
  generate_slack_blocks summary1 interval_summary service_name environment
    service_id previous_interval_summary
  = generate_slack_blocks summary2 interval_summary service_name environment
      service_id previous_interval_summary
  /\ generate_final_slack_blocks_with_intervals summary1 interval_summary
       service_name environment service_id
     = generate_final_slack_blocks_with_intervals summary2 interval_summary
         service_name environment service_id.
Proof.
  intros Hkeys.
  unfold generate_slack_blocks, generate_final_slack_blocks_with_intervals, Dict.items.
  split.
  - rewrite (map_on_keys
               (fun field =>
                  section_fields
                    [[Lit "*"; Titled (replace_char "_" " " field); Lit "*"; NL;
                      Lit "*Last Interval:* `";
                      format_value (get_or_zero field interval_summary); Lit "` ";
                      Lit (change_emoji (get_or_zero field interval_summary)
                             match previous_interval_summary with
                             | Some p => if dict_truthy p then get_or_zero field p else 0%Z
                             | None => 0%Z
                             end)]]) summary1).
    rewrite (map_on_keys
               (fun field =>
                  section_fields
                    [[Lit "*"; Titled (replace_char "_" " " field); Lit "*"; NL;
                      Lit "*Last Interval:* `";
                      format_value (get_or_zero field interval_summary); Lit "` ";
                      Lit (change_emoji (get_or_zero field interval_summary)
                             match previous_interval_summary with
                             | Some p => if dict_truthy p then get_or_zero field p else 0%Z
                             | None => 0%Z
                             end)]]) summary2).
    now rewrite Hkeys.
  - rewrite (map_on_keys
               (fun field =>
                  section_fields
                    [[Lit "*"; Titled (replace_char "_" " " field); Lit "*"; NL;
                      Lit "*Last Interval:* `";
                      format_value (get_or_zero field interval_summary); Lit "`"]])
               summary1).
    rewrite (map_on_keys
               (fun field =>
                  section_fields
                    [[Lit "*"; Titled (replace_char "_" " " field); Lit "*"; NL;
                      Lit "*Last Interval:* `";
                      format_value (get_or_zero field interval_summary); Lit "`"]])
               summary2).
    now rewrite Hkeys.
Qed.

Lemma blocks_ignore_totals_witness :
  Dict.keys (stats5 180 0 0 0 0) = Dict.keys zero_stats
  /\ generate_final_slack_blocks_with_intervals (stats5 0 180 0 0 0)
       (stats5 0 80 0 0 0) "svc" "production" "sid"
     = generate_final_slack_blocks_with_intervals zero_stats
         (stats5 0 80 0 0 0) "svc" "production" "sid".
Proof.
  split; [reflexivity|].
  apply (@blocks_ignore_totals (stats5 0 180 0 0 0) zero_stats (stats5 0 80 0 0 0)
           "svc" "production" "sid" None eq_refl).
Defined.


(** ** Interval aggregator *)





Section AggregatorMore.
Variable KUBIYA_DEBUG : bool.
Variables api_token service_name environment service_id : string.
Variables duration wait_interval : Z.
Variables slack_channel thread_ts : option string.

Local Abbreviation tick_ :=
  (tick KUBIYA_DEBUG api_token service_name environment service_id
        wait_interval slack_channel thread_ts).
Local Abbreviation polling_ :=
  (polling KUBIYA_DEBUG api_token service_name environment service_id
           wait_interval slack_channel thread_ts).
Local Abbreviation teardown_ :=
  (teardown service_name environment service_id slack_channel thread_ts).
Local Abbreviation starting_ :=
  (starting service_name environment service_id duration wait_interval
     slack_channel thread_ts).
Local Abbreviation stream_ :=
  (stream_real_time_data KUBIYA_DEBUG api_token service_name environment
     service_id duration wait_interval slack_channel thread_ts).
Local Abbreviation poll_trace_ := (poll_trace KUBIYA_DEBUG api_token service_id wait_interval).
Local Abbreviation locals_after_ :=
  (locals_after KUBIYA_DEBUG api_token service_name environment service_id
     wait_interval slack_channel thread_ts).

(** The request of one poll. *)
Local Abbreviation poll_request :=
  (EGet (REAL_TIME_BASE_URL ++ "/v1/channel/" ++ service_id ++ "/ts/0") None).













End AggregatorMore.






(** ** Entry point *)

Lemma keys_set_sub {V} (d : Dict.t V) (k k' : string) (v : V) :
  In k (Dict.keys (Dict.set k' v d)) -> k = k' \/ In k (Dict.keys d).
Proof.
  induction d as [|[k0 v0] d IH]; simpl.
  - intros [<-|[]]. now left.
  - destruct (String.eqb_spec k' k0) as [->|Hne]; simpl.
    + intros [<-|Hin]; auto.
    + intros [<-|Hin]; auto. destruct (IH Hin); auto.
Qed.

Lemma comprehension_keys_from {V} (p : string -> bool) (d acc : Dict.t V) (k : string) :
  In k (Dict.keys
          (fold_left (fun acc kv => if p (fst kv) then Dict.set (fst kv) (snd kv) acc
                                    else acc) d acc)) ->
  In k (Dict.keys acc) \/ In k (Dict.keys d).
Proof.
  revert acc. induction d as [|[k0 v0] d IH]; intros acc; simpl; [auto|].
  intros Hin. apply IH in Hin. destruct Hin as [Hin|Hin]; [|auto].
  destruct (p k0); [|auto].
  apply keys_set_sub in Hin. destruct Hin as [->|Hin]; auto.
Qed.

Lemma comprehension_keys_sub {V} (p : string -> bool) (d : Dict.t V) (k : string) :
  In k (Dict.keys (Dict.comprehension p d)) -> In k (Dict.keys d).
Proof.
  unfold Dict.comprehension, Dict.items, Dict.empty. intros Hin.
  apply comprehension_keys_from in Hin. destruct Hin as [[]|Hin]. exact Hin.
Qed.

(** The names the environment filter keeps are names of the directory. *)
Lemma filtered_keys_sub (environment : string) (services : Dict.t string) (k : string) :
  In k (Dict.keys (filter_services_by_environment environment services)) ->
  In k (Dict.keys services).
Proof.
  unfold filter_services_by_environment.
  destruct (String.eqb environment "production"); apply comprehension_keys_sub.
Qed.

Lemma as_services_json (services : Dict.t string) :
  as_services (map (fun kv => (fst kv, JStr (snd kv))) services) = Some services.
Proof.
  induction services as [|[k v] services IH]; [reflexivity|].
  simpl. now rewrite IH.
Qed.

Lemma get_environment_invalid (s : string) :
  ~ In (lower s) VALID_ENVIRONMENTS -> get_environment (Some s) = None.
Proof.
  intros Hn. unfold get_environment.
  destruct (negb (str_truthy (Some s))); [reflexivity|].
  destruct (existsb (String.eqb (lower s)) VALID_ENVIRONMENTS) eqn:E; [|reflexivity].
  apply existsb_eqb_In in E. contradiction.
Qed.

Section MainFacts.
Variable KUBIYA_DEBUG : bool.
Variable API_TOKEN : string.
Variables SLACK_CHANNEL_ID SLACK_THREAD_TS : option string.
Variable WRatio : string -> string -> nat.
Variable text : Type.
Variable json_dumps : json -> text.
Variable json_loads : text -> option json.
Variable isoformat : Z -> string.
Variable fromisoformat : string -> option datetime.

Local Abbreviation main_ :=
  (main KUBIYA_DEBUG API_TOKEN SLACK_CHANNEL_ID SLACK_THREAD_TS WRatio
        json_dumps json_loads isoformat fromisoformat).
Local Abbreviation resolve_and_stream_ :=
  (resolve_and_stream KUBIYA_DEBUG API_TOKEN SLACK_CHANNEL_ID SLACK_THREAD_TS WRatio).
Local Abbreviation list_services_ :=
  (list_services KUBIYA_DEBUG json_dumps json_loads isoformat fromisoformat).
Local Abbreviation stream_ :=
  (fun best_match environment service_id =>
     stream_real_time_data KUBIYA_DEBUG API_TOKEN best_match environment service_id
       DEFAULT_STREAM_DURATION DEFAULT_WAIT_INTERVAL SLACK_CHANNEL_ID SLACK_THREAD_TS).

(** X18. A name that does not lower-case to production, dev or qa ends
    [main] at once: one line is printed, which names 'None' (the
    variable was overwritten by [get_environment]'s answer before the
    message is formatted) and not the name given; no request is made,
    the disk is left as it was, and nothing is raised. *)
Theorem main_invalid_environment (environment service_name : string)
    (w : main_world text) :
  ~ In (lower environment) VALID_ENVIRONMENTS ->
  main_ environment service_name w
  = Some (([EPrint [Lit "No matching environment found for '"; Lit "None";
                    Lit "'. Available environments: ";
                    Lit "['production', 'dev', 'qa']"]], Ok tt),
          disk w).
Proof.
  intros Hn. unfold main, main_try.
  now rewrite (get_environment_invalid _ Hn).
Qed.

(** The resolution step of [main] (lines 376-389) on a directory
    without an empty name: either the filter keeps nothing and the
    [ValueError] of [get_best_match] is raised, or the stream runs for
    the matched name and the id the directory holds for it. *)
Lemma resolve_and_stream_cases (environment service_name : string)
    (services : Dict.t string) (answers : stream_world) :
  ~ In "" (Dict.keys services) ->
  (filter_services_by_environment environment services = []
   /\ resolve_and_stream_ environment service_name services answers
      = raise (ValueError ("No services found that match '" ++ service_name
                           ++ "' in the '" ++ environment ++ "' environment.")))
  \/ (exists best_match service_id,
        get_best_match WRatio service_name
          (filter_services_by_environment environment services) environment
        = Ok best_match
        /\ In best_match
              (Dict.keys (filter_services_by_environment environment services))
        /\ Dict.get best_match services = Some service_id
        /\ resolve_and_stream_ environment service_name services answers
           = (debug_print KUBIYA_DEBUG [Lit "Best matching service: "; Lit best_match] ;;;
              stream_ best_match environment service_id answers ;;;
              print [Lit "View more details in the Fastly dashboard: ";
                     Lit (FASTLY_DASHBOARD_REALTIME_URL service_id "60s")])%script).
Proof.
  intros Hempty. unfold resolve_and_stream.
  destruct (filter_services_by_environment environment services) as [|kv D] eqn:Hf.
  - left. split; [reflexivity|]. now rewrite get_best_match_empty.
  - right.
    destruct (@get_best_match_nonempty WRatio service_name (kv :: D) environment)
      as [best Hbest]; [discriminate|].
    pose proof (get_best_match_Ok_In _ _ _ _ Hbest) as Hin.
    assert (Hkeys : In best (Dict.keys services)).
    { apply (@filtered_keys_sub environment). now rewrite Hf. }
    apply DictFacts.mem_in_keys in Hkeys as Hmem. unfold Dict.mem in Hmem.
    destruct (Dict.get best services) as [sid|] eqn:Hget; [|discriminate].
    exists best, sid. rewrite Hbest. repeat split; try assumption.
    unfold lift, bind at 1. cbn [app].
    assert (Htruthy : str_truthy (Some best) = true).
    { destruct best; [contradiction|reflexivity]. }
    rewrite Htruthy. cbn [negb].
    unfold dict_getitem. rewrite Hget. unfold bind at 1. cbn [app].
    unfold generate_dashboard_url.
    destruct (_ ;;; _)%script. reflexivity.
Qed.

(** The handler of [main] around a body that ran [tr] and then [m]. *)
Lemma main_handler (tr : list event) (m : M unit) :
  try_except (replay tr ;;; m)%script
    (fun e => Some (print [Lit "An error occurred: "; Exc e]))
  = ((tr ++ trace_of m
         ++ match result_of m with
            | Ok _ => []
            | Raise e => [EPrint [Lit "An error occurred: "; Exc e]]
            end)%list, Ok tt).
Proof.
  destruct m as [tr' [[]|e]]; unfold replay, bind, try_except, print, emit; simpl.
  - now rewrite app_nil_r.
  - now rewrite app_assoc.
Qed.

(** X19. [main] end to end, for a valid environment and a listing that
    returned the directory [services] (no empty name in it): after the
    listing's own output, an empty directory gives the line "No
    services found."; a directory of which the filter keeps nothing
    gives the generic line "An error occurred: No services found that
    match ..."; otherwise the stream runs for the matched name and the
    id the directory holds for it, and is followed by the dashboard
    link when it ends normally and by "An error occurred: ..." when it
    raises. In every case [main] itself returns normally and leaves the
    disk as the listing left it. *)
Theorem main_outcomes (environment service_name env : string)
    (w : main_world text) (listed : M (json * filesystem text))
    (services : Dict.t string) (fs : filesystem text) :
  get_environment (Some environment) = Some env ->
  list_services_ (fuel w) (t_load w) (t_save w) (disk w) (provider w) = Some listed ->
  result_of listed = Ok (json_of_services services, fs) ->
  ~ In "" (Dict.keys services) ->
  exists tail,
    main_ environment service_name w
    = Some (((trace_of (debug_print KUBIYA_DEBUG [Lit "Fetching list of services..."])
              ++ trace_of listed ++ tail)%list, Ok tt), fs)
    /\ match services, filter_services_by_environment env services with
       | [], _ => tail = [EPrint [Lit "No services found."]]
       | _ :: _, [] =>
           tail = [EPrint [Lit "An error occurred: ";
                           Exc (ValueError ("No services found that match '"
                                            ++ service_name ++ "' in the '" ++ env
                                            ++ "' environment."))]]
       | _ :: _, _ :: _ =>
           exists best_match service_id,
             get_best_match WRatio service_name
               (filter_services_by_environment env services) env = Ok best_match
             /\ Dict.get best_match services = Some service_id
             /\ tail
                = (trace_of (debug_print KUBIYA_DEBUG
                               [Lit "Best matching service: "; Lit best_match])
                   ++ trace_of (stream_ best_match env service_id (stream_answers w))
                   ++ match result_of (stream_ best_match env service_id
                                         (stream_answers w)) with
                      | Ok _ =>
                          [EPrint [Lit "View more details in the Fastly dashboard: ";
                                   Lit (FASTLY_DASHBOARD_REALTIME_URL service_id "60s")]]
                      | Raise e => [EPrint [Lit "An error occurred: "; Exc e]]
                      end)%list
       end.
Proof.
  intros Henv Hlist Hres Hempty.
  unfold main, main_try. rewrite Henv, Hlist, Hres.
  rewrite truthy_json_of_services.
  assert (Hpre : forall k : M unit,
             (debug_print KUBIYA_DEBUG [Lit "Fetching list of services..."] ;;;
              listed ;;; k)%script
             = (replay (trace_of (debug_print KUBIYA_DEBUG
                                    [Lit "Fetching list of services..."])
                        ++ trace_of listed)%list ;;; k)%script).
  { intros k. destruct listed as [trl rl]. simpl in Hres. subst rl.
    unfold debug_print, replay, print, emit, ret, bind.
    destruct KUBIYA_DEBUG, k as [trk rk]; simpl; now rewrite ?app_assoc. }
  destruct services as [|kv services'].
  - cbn [negb]. eexists. split; [|reflexivity].
    rewrite Hpre, main_handler. cbn [trace_of result_of print emit fst snd].
    now rewrite app_nil_r, <- app_assoc.
  - cbn [negb]. unfold json_of_services. rewrite as_services_json.
    rewrite Hpre, main_handler.
    destruct (@resolve_and_stream_cases env service_name (kv :: services')
                (stream_answers w) Hempty) as [[Hf Hr] | (best & sid & Hb & _ & Hg & Hr)].
    + rewrite Hr, Hf. eexists. split; [|reflexivity].
      cbn [raise trace_of result_of fst snd app]. now rewrite <- app_assoc.
    + rewrite Hr.
      destruct (filter_services_by_environment env (kv :: services')) as [|kv' D'] eqn:Hf.
      { rewrite get_best_match_empty in Hb. discriminate. }
      eexists. split; [|exists best, sid; split; [exact Hb|split; [exact Hg|reflexivity]]].
      rewrite <- app_assoc. do 3 f_equal.
      unfold debug_print, print, emit, ret, bind.
      destruct KUBIYA_DEBUG;
        destruct (stream_real_time_data _ _ _ _ _ _ _ _ _ _) as [trs [[]|e]];
        simpl; rewrite <- ?app_assoc; reflexivity.
Qed.
End MainFacts.

Lemma main_invalid_environment_witness :
  main false "token" (Some "C42") None disjoint_score
       Some (fun c => c) decimal_isoformat decimal_fromisoformat
       "staging" "prod-svc" (sample_main_world (Posted "C42" "1700000000.000100"))
  = Some (([EPrint [Lit "No matching environment found for '"; Lit "None";
                    Lit "'. Available environments: ";
                    Lit "['production', 'dev', 'qa']"]], Ok tt),
          empty_disk).
Proof.
  apply (@main_invalid_environment false "token" (Some "C42") None disjoint_score
           (option json) Some (fun c => c) decimal_isoformat decimal_fromisoformat
           "staging" "prod-svc" (sample_main_world (Posted "C42" "1700000000.000100"))).
  simpl. intros [H|[H|[H|[]]]]; discriminate.
Defined.

Lemma main_outcomes_witness :
  let services := [("prod-svc", "id1"); ("dev.prod-svc", "id2")] in
  let w := sample_main_world (PostFailed "channel_not_found") in
  exists listed fs,
    list_services false Some (fun c => c) decimal_isoformat decimal_fromisoformat
      (fuel w) (t_load w) (t_save w) (disk w) (provider w) = Some listed
    /\ result_of listed = Ok (json_of_services services, fs)
    /\ exists tail,
         main false "token" None None disjoint_score
              Some (fun c => c) decimal_isoformat decimal_fromisoformat
              "Production" "prod-svc" w
         = Some (((trace_of (debug_print false [Lit "Fetching list of services..."])
                   ++ trace_of listed ++ tail)%list, Ok tt), fs)
         /\ exists best_match service_id,
              get_best_match disjoint_score "prod-svc"
                (filter_services_by_environment "production" services) "production"
              = Ok best_match
              /\ Dict.get best_match services = Some service_id
              /\ tail
                 = (trace_of (debug_print false
                                [Lit "Best matching service: "; Lit best_match])
                    ++ trace_of (stream_real_time_data false "token" best_match
                                   "production" service_id DEFAULT_STREAM_DURATION
                                   DEFAULT_WAIT_INTERVAL None None (stream_answers w))
                    ++ match result_of (stream_real_time_data false "token" best_match
                                          "production" service_id DEFAULT_STREAM_DURATION
                                          DEFAULT_WAIT_INTERVAL None None
                                          (stream_answers w)) with
                       | Ok _ =>
                           [EPrint [Lit "View more details in the Fastly dashboard: ";
                                    Lit (FASTLY_DASHBOARD_REALTIME_URL service_id "60s")]]
                       | Raise e => [EPrint [Lit "An error occurred: "; Exc e]]
                       end)%list.
Proof.
  intros services w.
  assert (Hlisted :
            exists listed fs,
              list_services false Some (fun c => c) decimal_isoformat
                decimal_fromisoformat (fuel w) (t_load w) (t_save w) (disk w)
                (provider w) = Some listed
              /\ result_of listed = Ok (json_of_services services, fs)).
  { do 2 eexists. split; reflexivity. }
  destruct Hlisted as (listed & fs & Hlist & Hres).
  exists listed, fs. split; [exact Hlist|]. split; [exact Hres|].
  apply (@main_outcomes false "token" None None disjoint_score (option json)
           Some (fun c => c) decimal_isoformat decimal_fromisoformat
           "Production" "prod-svc" "production" w listed services fs).
  - reflexivity.
  - exact Hlist.
  - exact Hres.
  - simpl. intros [H|[H|[]]]; discriminate.
Defined.
